(** * ChatCast reliability channel: [handle_reliable_event] of server.py

    A shallow embedding of the application-layer reliability protocol of
    the ChatCast server (server.py): the sequence-bound CRC integrity
    value, the per-transfer receipt ledger [transfer_states], the frame
    dispatcher [handle_reliable_event] and its Socket.IO entry point
    [on_reliable_event].

    Frames are the dictionaries Socket.IO decodes from JSON; they are
    kept dynamically typed ([pyval]) because the server coerces every
    field itself ([int(...)], [... or ''], truthiness tests).  JSON
    numbers are taken to be integers; JSON objects nested inside a frame
    behave, for every operation the engine applies to a field, like
    arrays, which stand for both. *)

From Stdlib Require Import ZArith String Ascii HexString.
From Stdlib.Strings Require Import Byte.
From stdpp Require Import base decidable option list gmap strings pretty sorting.

#[local] Open Scope string_scope.
#[local] Open Scope Z_scope.
#[local] Set Warnings "-clear-no-such-hyp".

(* ===================================================================== *)
(** * Python values, exceptions and the builtins the server calls        *)
(* ===================================================================== *)

Module Py.

(** Values found in a decoded frame. *)
#[warnings="-register-all"]
Inductive pyval :=
| PNone
| PBool (b : bool)
| PInt (z : Z)
| PStr (s : string)
| PList (l : list pyval).

(** Exceptions, with the text [str(exc)] yields (CPython 3.11 wording). *)
Inductive pyexn :=
| TypeError (msg : string)
| ValueError (msg : string)
| AttributeError (msg : string)
| BinasciiError (msg : string).

Definition exn_str (e : pyexn) : string :=
  match e with
  | TypeError m | ValueError m | AttributeError m | BinasciiError m => m
  end.

(** A call either returns or raises. *)
Inductive outcome (A : Type) :=
| Return (a : A)
| Raise (e : pyexn).
Arguments Return {A} a.
Arguments Raise {A} e.

Definition type_name (v : pyval) : string :=
  match v with
  | PNone => "NoneType"
  | PBool _ => "bool"
  | PInt _ => "int"
  | PStr _ => "str"
  | PList _ => "list"
  end.

(** Truth value testing: [if v], [not v], [v or d]. *)
Definition truthy (v : pyval) : bool :=
  match v with
  | PNone => false
  | PBool b => b
  | PInt z => negb (z =? 0)
  | PStr s => negb (String.eqb s "")
  | PList l => match l with [] => false | _ => true end
  end.

Definition py_or (v d : pyval) : pyval := if truthy v then v else d.

(** [v == 'literal'] for a string literal. *)
Definition eq_str (v : pyval) (s : string) : bool :=
  match v with
  | PStr s' => String.eqb s' s
  | _ => false
  end.

(** ** [str.lower]

    Strings are kept as their UTF-8 bytes and only the ASCII letters
    are mapped.  Python maps letters outside ASCII as well, but to
    nothing that can occur in a hexadecimal value, and that is all the
    engine compares a lowercased string with. *)

Definition lower_ascii (c : ascii) : ascii :=
  let n := nat_of_ascii c in
  if (65 <=? n)%nat && (n <=? 90)%nat then ascii_of_nat (n + 32) else c.

Fixpoint lower (s : string) : string :=
  match s with
  | EmptyString => EmptyString
  | String c r => String (lower_ascii c) (lower r)
  end.

(** [v.lower()]: only [str] has the method. *)
Definition py_lower (v : pyval) : outcome string :=
  match v with
  | PStr s => Return (lower s)
  | _ => Raise (AttributeError
                  ("'" +:+ type_name v +:+ "' object has no attribute 'lower'"))
  end.

(** ** [f"{v:08x}"] *)

Definition hex_digits (v : N) : string :=
  match v with
  | N0 => "0"
  | Npos p => HexString.Raw.of_pos p ""
  end.

Fixpoint zeros (n : nat) : string :=
  match n with
  | O => ""
  | S k => String "0" (zeros k)
  end.

Definition zfill (width : nat) (s : string) : string :=
  zeros (width - String.length s) +:+ s.

(** Sign-aware zero padding to a minimum width of 8. *)
Definition format_08x (v : Z) : string :=
  match v with
  | Zneg p => String "-" (zfill 7 (hex_digits (Npos p)))
  | _ => zfill 8 (hex_digits (Z.to_N v))
  end.

(** ** [zlib.crc32] *)

Definition crc32_bit (crc : Z) : Z :=
  if Z.testbit crc 0
  then Z.lxor (Z.shiftr crc 1) 0xEDB88320
  else Z.shiftr crc 1.

Definition crc32_byte (crc : Z) (b : byte) : Z :=
  Nat.iter 8 crc32_bit (Z.lxor crc (Z.of_N (Byte.to_N b))).

Definition crc32 (data : list byte) : Z :=
  Z.lxor (fold_left crc32_byte data 0xFFFFFFFF) 0xFFFFFFFF.

(** ** [str.encode('utf-8')]: strings are kept as their UTF-8 bytes. *)
Definition encode_utf8 (s : string) : list byte := list_byte_of_string s.

(** ** [base64.b64decode] (non-validating, as the server calls it) *)

Definition b64_value (c : ascii) : option Z :=
  let n := Z.of_nat (nat_of_ascii c) in
  if (65 <=? n) && (n <=? 90) then Some (n - 65)
  else if (97 <=? n) && (n <=? 122) then Some (n - 71)
  else if (48 <=? n) && (n <=? 57) then Some (n + 4)
  else if n =? 43 then Some 62
  else if n =? 47 then Some 63
  else None.

Definition byte_of_Z (z : Z) : byte :=
  default x00 (Byte.of_N (Z.to_N (z mod 256))).

(** The scanner of [binascii.a2b_base64]: position in the current quad,
    bits left over from the previous character, count of pad characters
    seen since the last data character, and the output so far
    (reversed).  Characters outside the alphabet are skipped; a pad
    sequence completing a quad ends the scan. *)
Fixpoint a2b_scan (s : string) (quad_pos : nat) (leftchar : Z) (pads : nat)
    (out : list byte) : outcome (list byte) :=
  match s with
  | EmptyString =>
      match quad_pos with
      | O => Return (rev out)
      | 1%nat => Raise (BinasciiError
          ("Invalid base64-encoded string: number of data characters ("
           +:+ pretty (length out / 3 * 4 + 1)%nat
           +:+ ") cannot be 1 more than a multiple of 4"))
      | _ => Raise (BinasciiError "Incorrect padding")
      end
  | String c r =>
      if Ascii.eqb c "=" then
        if (2 <=? quad_pos)%nat then
          if (4 <=? quad_pos + S pads)%nat then Return (rev out)
          else a2b_scan r quad_pos leftchar (S pads) out
        else a2b_scan r quad_pos leftchar pads out
      else
        match b64_value c with
        | None => a2b_scan r quad_pos leftchar pads out
        | Some v =>
            match quad_pos with
            | O => a2b_scan r 1 v 0 out
            | 1%nat =>
                a2b_scan r 2 (Z.land v 15) 0
                  (byte_of_Z (Z.lor (Z.shiftl leftchar 2) (Z.shiftr v 4)) :: out)
            | 2%nat =>
                a2b_scan r 3 (Z.land v 3) 0
                  (byte_of_Z (Z.lor (Z.shiftl leftchar 4) (Z.shiftr v 2)) :: out)
            | _ =>
                a2b_scan r 0 0 0
                  (byte_of_Z (Z.lor (Z.shiftl leftchar 6) v) :: out)
            end
        end
  end.

Definition b64decode (s : string) : outcome (list byte) := a2b_scan s 0 0 0 [].

(** ** [int(v)]

    For a string, the decimal literal grammar over ASCII: surrounding
    whitespace, an optional sign, digits with single underscores
    between them. *)

Definition is_space (c : ascii) : bool :=
  let n := nat_of_ascii c in
  ((9 <=? n) && (n <=? 13) || (n =? 32))%nat.

Definition digit_value (c : ascii) : option Z :=
  let n := Z.of_nat (nat_of_ascii c) in
  if (48 <=? n) && (n <=? 57) then Some (n - 48) else None.

Fixpoint all_space (s : string) : bool :=
  match s with
  | EmptyString => true
  | String c r => is_space c && all_space r
  end.

Fixpoint lstrip (s : string) : string :=
  match s with
  | EmptyString => EmptyString
  | String c r => if is_space c then lstrip r else s
  end.

(** Digits after the first one: single underscores may separate digits,
    trailing whitespace is allowed. *)
Fixpoint int_digits (s : string) (acc : Z) : option Z :=
  match s with
  | EmptyString => Some acc
  | String c r =>
      match digit_value c with
      | Some d => int_digits r (10 * acc + d)
      | None =>
          if Ascii.eqb c "_" then
            match r with
            | String c' r' =>
                match digit_value c' with
                | Some d => int_digits r' (10 * acc + d)
                | None => None
                end
            | EmptyString => None
            end
          else if all_space s then Some acc else None
      end
  end.

Definition int_literal (s : string) : option Z :=
  let unsigned (t : string) :=
    match t with
    | String c r =>
        match digit_value c with
        | Some d => int_digits r d
        | None => None
        end
    | EmptyString => None
    end in
  match lstrip s with
  | String "-" t => Z.opp <$> unsigned t
  | String "+" t => unsigned t
  | t => unsigned t
  end.

Definition py_int (v : pyval) : outcome Z :=
  match v with
  | PInt z => Return z
  | PBool b => Return (Z.b2z b)
  | PStr s =>
      match int_literal s with
      | Some z => Return z
      | None => Raise (ValueError
          ("invalid literal for int() with base 10: '" +:+ s +:+ "'"))
      end
  | _ => Raise (TypeError
      ("int() argument must be a string, a bytes-like object or a real number, not '"
       +:+ type_name v +:+ "'"))
  end.

End Py.

Import Py.

(* ===================================================================== *)
(** * Data model of the reliability channel                              *)
(* ===================================================================== *)

(** Keys of the [transfer_states] dictionary: the hashable frame values.
    Python dictionaries identify [True] with [1] and [False] with [0]. *)
Inductive pykey :=
| KNone
| KInt (z : Z)
| KStr (s : string).

#[global] Instance pykey_eq_dec : EqDecision pykey.
Proof. solve_decision. Defined.

Definition pykey_to_sum (k : pykey) : unit + (Z + string) :=
  match k with
  | KNone => inl tt
  | KInt z => inr (inl z)
  | KStr s => inr (inr s)
  end.

Definition pykey_of_sum (x : unit + (Z + string)) : pykey :=
  match x with
  | inl _ => KNone
  | inr (inl z) => KInt z
  | inr (inr s) => KStr s
  end.

#[global] Instance pykey_countable : Countable pykey :=
  inj_countable' pykey_to_sum pykey_of_sum
    (λ k, match k with KNone | KInt _ | KStr _ => eq_refl end).

(** Hashing a value for a dictionary lookup; lists are unhashable. *)
Definition py_key (v : pyval) : outcome pykey :=
  match v with
  | PNone => Return KNone
  | PBool b => Return (KInt (Z.b2z b))
  | PInt z => Return (KInt z)
  | PStr s => Return (KStr s)
  | PList _ => Raise (TypeError "unhashable type: 'list'")
  end.

(** [st['meta']]: captured from the chunk that creates the state. *)
Record Meta := mkMeta {
  meta_total_chunks : Z;
  meta_chunk_size : pyval;
  meta_filename : pyval;
  meta_total_size : pyval
}.

(** One entry of [transfer_states]:
    [{'received': set(int), 'highest_contig': int, 'meta': {...}}]. *)
Record TransferState := mkState {
  received : gset Z;
  highest_contig : Z;
  meta : Meta
}.

(** A payload handed to [send] by [_send_control]; every one of them
    carries ['type': 'CONTROL'].  A field is [None] when the dictionary
    literal at the call site has no such key; [c_meta] lists the entries
    of the nested ['meta'] dictionary in source order. *)
Record control := mkControl {
  c_cmd : string;
  c_seq : option pyval;
  c_transfer_id : option pyval;
  c_meta : option (list (string * pyval))
}.

(** The summary dictionary [handle_reliable_event] returns. *)
Record result := mkResult {
  r_handled : pyval;
  r_sid : string;
  r_transfer_id : pyval;
  r_cmd : option pyval;
  r_seq : option Z;
  r_reason : option string
}.

(** The mutable surroundings of one engine call: the module-level
    [transfer_states] dictionary and what the [send] callback has been
    given so far, oldest first. *)
Record world := mkWorld {
  transfer_states : gmap pykey TransferState;
  sent : list control
}.

(** An inbound frame: the dictionary Socket.IO decoded. *)
Abbreviation frame := (gmap string pyval).

(* ===================================================================== *)
(** * State and exception monad                                          *)
(* ===================================================================== *)

Definition M (A : Type) : Type := world -> outcome A * world.

#[global] Instance M_ret : MRet M := λ A a w, (Return a, w).

#[global] Instance M_bind : MBind M := λ A B f m w,
  match m w with
  | (Return a, w') => f a w'
  | (Raise e, w') => (Raise e, w')
  end.

(** A builtin call: returns or raises, touches nothing. *)
Definition call {A} (o : outcome A) : M A := λ w, (o, w).

Definition try_except {A} (body : M A) (handler : pyexn -> M A) : M A := λ w,
  match body w with
  | (Return a, w') => (Return a, w')
  | (Raise e, w') => handler e w'
  end.

Definition lookup_state (k : pykey) : M (option TransferState) := λ w,
  (Return (transfer_states w !! k), w).

(** Writes through the reference [st] the engine holds: the object
    stored under [k] is the one mutated. *)
Definition store_state (k : pykey) (st : TransferState) : M unit := λ w,
  (Return tt, mkWorld (<[k := st]> (transfer_states w)) (sent w)).

Definition send (payload : control) : M unit := λ w,
  (Return tt, mkWorld (transfer_states w) (sent w ++ [payload])).

Definition _send_control (payload : control) : M unit := send payload.

(* ===================================================================== *)
(** * The engine                                                         *)
(* ===================================================================== *)

(** [data.get(key)] and [data.get(key, dflt)]. *)
Definition get (data : frame) (key : string) : pyval :=
  default PNone (data !! key).

Definition get_or (data : frame) (key : string) (dflt : pyval) : pyval :=
  default dflt (data !! key).

(** The argument of [zlib.crc32] on the MSG path,
    [payload.encode('utf-8') if isinstance(payload, str) else payload]:
    anything but a string reaches [zlib.crc32] unconverted and is
    rejected there. *)
Definition payload_bytes_of (payload : pyval) : outcome (list byte) :=
  match payload with
  | PStr s => Return (encode_utf8 s)
  | v => Raise (TypeError
      ("a bytes-like object is required, not '" +:+ type_name v +:+ "'"))
  end.

(** [base64.b64decode(payload_b64.encode('utf-8'))]. *)
Definition decode_payload (payload_b64 : pyval) : outcome (list byte) :=
  match payload_b64 with
  | PStr s => b64decode s
  | v => Raise (AttributeError
      ("'" +:+ type_name v +:+ "' object has no attribute 'encode'"))
  end.

(** [f"{(local_crc ^ seq):08x}"] with [local_crc = zlib.crc32(raw) &
    0xFFFFFFFF]: the integrity value bound to the sequence number. *)
Definition calculated_hex (raw : list byte) (seq : Z) : string :=
  let local_crc := Z.land (crc32 raw) 0xFFFFFFFF in
  let calculated_integrity_value := Z.lxor local_crc seq in
  format_08x calculated_integrity_value.

(** [calculated_hex.lower() != checksum.lower()] for a [str] checksum. *)
Definition integrity_mismatch (calculated checksum : string) : bool :=
  negb (String.eqb (lower calculated) (lower checksum)).

(** [while (hc + 1) in st['received']: hc += 1].  Each turn of the loop
    consumes one more element of the finite set; [fuel] bounds the
    number of turns. *)
Fixpoint advance (fuel : nat) (recv : gset Z) (hc : Z) : Z :=
  match fuel with
  | O => hc
  | S fuel' =>
      if decide (hc + 1 ∈ recv) then advance fuel' recv (hc + 1) else hc
  end.

(** The body of [if seq not in st['received']: ...].  The loop cannot
    take more turns than the set has elements, so that many are
    allowed. *)
Definition record_seq (st : TransferState) (seq : Z) : TransferState :=
  let recv := {[seq]} ∪ received st in
  mkState recv (advance (size recv) recv (highest_contig st)) (meta st).

(** [range(total)]. *)
Definition range (total : Z) : list Z :=
  Z.of_nat <$> seq 0 (Z.to_nat total).

(** [[i for i in range(total) if i not in st['received']]]. *)
Definition missing_of (total : Z) (recv : gset Z) : list Z :=
  filter (λ i, i ∉ recv) (range total).

Definition handle_reliable_event (data : frame) (sid : string) : M result :=
  let result := mkResult (get data "type") sid (get data "transfer_id")
                         None None None in
  let typ := get data "type" in
  if eq_str typ "MSG" then
    seq ← call (py_int (get_or data "seq" (PInt 0)));
    let payload := get_or data "payload" (PStr "") in
    let checksum := py_or (get data "checksum") (PStr "") in
    if truthy checksum then
      payload_bytes ← call (payload_bytes_of payload);
      let calculated_hex := calculated_hex payload_bytes seq in
      checksum_lower ← call (py_lower checksum);
      if negb (String.eqb (lower calculated_hex) checksum_lower) then
        _send_control (mkControl "INTEGRITY_FAIL" (Some (PInt seq))
          (Some (PStr "MSG"))
          (Some [("reason", PStr "integrity_compromised");
                 ("expected", PStr calculated_hex);
                 ("received", checksum);
                 ("seq", PInt seq);
                 ("type", PStr "MSG")]));;
        mret (mkResult (r_handled result) (r_sid result) (r_transfer_id result)
                (Some (PStr "INTEGRITY_FAIL")) (Some seq) None)
      else
        _send_control (mkControl "ACK" (Some (PInt seq)) None
          (Some [("integrity_status", PStr "valid");
                 ("expected", PStr calculated_hex);
                 ("received", checksum);
                 ("type", PStr "MSG")]));;
        mret (mkResult (r_handled result) (r_sid result) (r_transfer_id result)
                (Some (PStr "ACK")) (Some seq) None)
    else
      _send_control (mkControl "ACK" (Some (PInt seq)) None None);;
      mret (mkResult (r_handled result) (r_sid result) (r_transfer_id result)
              (Some (PStr "ACK")) (Some seq) None)
  else if eq_str typ "FILE_CHUNK" then
    let transfer_id := get data "transfer_id" in
    seq ← call (py_int (get_or data "seq" (PInt 0)));
    let checksum := py_or (get data "checksum") (PStr "") in
    let payload_b64 := py_or (get data "payload_b64") (PStr "") in
    total_chunks ← call (py_int (get_or data "total_chunks" (PInt 0)));
    if negb (truthy transfer_id) then
      _send_control (mkControl "NACK" (Some (PInt seq)) (Some transfer_id)
        (Some [("reason", PStr "missing_transfer_id")]));;
      mret (mkResult (r_handled result) (r_sid result) (r_transfer_id result)
              (Some (PStr "NACK")) (Some seq) (Some "missing_transfer_id"))
    else
      match decode_payload payload_b64 with
      | Raise _ =>
          _send_control (mkControl "NACK" (Some (PInt seq)) (Some transfer_id)
            (Some [("reason", PStr "invalid_base64")]));;
          mret (mkResult (r_handled result) (r_sid result)
                  (r_transfer_id result)
                  (Some (PStr "NACK")) (Some seq) (Some "invalid_base64"))
      | Return raw =>
          let calculated_hex := calculated_hex raw seq in
          checksum_lower ← call (py_lower checksum);
          if negb (String.eqb (lower calculated_hex) checksum_lower) then
            _send_control (mkControl "INTEGRITY_FAIL" (Some (PInt seq))
              (Some transfer_id)
              (Some [("reason", PStr "integrity_compromised");
                     ("expected", PStr calculated_hex);
                     ("received", checksum);
                     ("seq", PInt seq)]));;
            mret (mkResult (r_handled result) (r_sid result)
                    (r_transfer_id result)
                    (Some (PStr "INTEGRITY_FAIL")) (Some seq)
                    (Some "integrity_mismatch"))
          else
            key ← call (py_key transfer_id);
            found ← lookup_state key;
            st ← match found with
                 | Some st => mret st
                 | None =>
                     let st := mkState ∅ (-1)
                                 (mkMeta total_chunks
                                    (get data "chunk_size")
                                    (get data "filename")
                                    (get data "total_size")) in
                     store_state key st;; mret st
                 end;
            st ← (if decide (seq ∈ received st) then mret st
                  else let st := record_seq st seq in
                       store_state key st;; mret st);
            _send_control (mkControl "ACK" (Some (PInt seq)) (Some transfer_id)
              (Some [("integrity_status", PStr "valid");
                     ("expected", PStr calculated_hex);
                     ("received", checksum)]));;
            (if negb (meta_total_chunks (meta st) =? 0) then
               if (seq mod 4 =? 0)
                  || (highest_contig st =? meta_total_chunks (meta st) - 1)
               then _send_control (mkControl "CUM_ACK"
                      (Some (PInt (highest_contig st))) (Some transfer_id) None)
               else mret tt
             else mret tt);;
            mret (mkResult (r_handled result) (r_sid result)
                    (r_transfer_id result)
                    (Some (PStr "ACK")) (Some seq) None)
      end
  else if eq_str typ "CONTROL" then
    let cmd := get data "cmd" in
    let transfer_id := get data "transfer_id" in
    (if eq_str cmd "RESUME_REQUEST" && truthy transfer_id then
       key ← call (py_key transfer_id);
       found ← lookup_state key;
       match found with
       | None =>
           _send_control (mkControl "CUM_ACK" (Some (PInt (-1)))
                            (Some transfer_id) None)
       | Some st =>
           let total := meta_total_chunks (meta st) in
           let missing := missing_of total (received st) in
           match missing with
           | _ :: _ =>
               _send_control (mkControl "MISSING" None (Some transfer_id)
                 (Some [("missing", PList (PInt <$> missing))]))
           | [] =>
               _send_control (mkControl "CUM_ACK"
                 (Some (PInt (highest_contig st))) (Some transfer_id) None)
           end
       end
     else mret tt);;
    mret (mkResult (r_handled result) (r_sid result) (r_transfer_id result)
            (Some cmd) None None)
  else
    mret (mkResult (r_handled result) (r_sid result) (r_transfer_id result)
            (Some PNone) None None).

(** The Socket.IO handler: [sid] is [request.sid]; [send] delivers to
    that client only. *)
Definition on_reliable_event (data : frame) (sid : string) : M unit :=
  try_except
    (handle_reliable_event data sid;; mret tt)
    (λ exc,
       _send_control (mkControl "NACK" (Some (get_or data "seq" (PInt (-1))))
         None
         (Some [("reason", PStr ("exception:" +:+ exn_str exc))]))).

(** What Socket.IO hands to the handler: the JSON value the client
    sent.  An object arrives as a dictionary; anything else arrives as
    the value it is. *)
Inductive json :=
| Object (d : frame)
| Other (v : pyval).

(** [data.get]: an attribute of dictionaries only. *)
Definition get_method (data : json) : outcome frame :=
  match data with
  | Object d => Return d
  | Other v => Raise (AttributeError
      ("'" +:+ type_name v +:+ "' object has no attribute 'get'"))
  end.

(** [handle_reliable_event] and [on_reliable_event] on whatever
    arrives.  The engine starts with [data.get('type')]; the [except]
    block of the handler evaluates [data.get('seq', -1)] for the NACK it
    is about to send, outside any [try]. *)
Definition handle_reliable_event_json (data : json) (sid : string)
    : M result :=
  d ← call (get_method data);
  handle_reliable_event d sid.

Definition on_reliable_event_json (data : json) (sid : string) : M unit :=
  try_except
    (handle_reliable_event_json data sid;; mret tt)
    (λ exc,
       d ← call (get_method data);
       _send_control (mkControl "NACK" (Some (get_or d "seq" (PInt (-1))))
         None
         (Some [("reason", PStr ("exception:" +:+ exn_str exc))]))).

(** A session: engine calls one after another on the same
    [transfer_states]. *)
Definition run (frames : list (frame * string)) (w : world) : world :=
  fold_left (λ w ev, (handle_reliable_event ev.1 ev.2 w).2) frames w.

Definition initial : world := mkWorld ∅ [].

(* ===================================================================== *)
(** * Vocabulary of the statements                                       *)
(* ===================================================================== *)

(** Every sequence number of [0..n] has been received. *)
Definition prefix_received (recv : gset Z) (n : Z) : Prop :=
  ∀ i, 0 ≤ i ≤ n → i ∈ recv.

(** [hc] is the largest [n] with [{0..n} ⊆ recv], or [-1] when [0] is
    missing. *)
Definition is_highest_contig (recv : gset Z) (hc : Z) : Prop :=
  ((0 ∉ recv) ∧ hc = (-1)) ∨
  (0 ≤ hc ∧ prefix_received recv hc ∧ ∀ n, prefix_received recv n → n ≤ hc).

(** The form the loop maintains: everything up to [hc] is in, [hc + 1]
    is not. *)
Definition contig_inv (st : TransferState) : Prop :=
  (-1) ≤ highest_contig st ∧
  prefix_received (received st) (highest_contig st) ∧
  highest_contig st + 1 ∉ received st.

(** Elements of the set above [hc]: what the loop can still consume. *)
Definition above (recv : gset Z) (hc : Z) : gset Z :=
  filter (λ x, hc < x) recv.

(** A FILE_CHUNK frame that gets as far as the integrity check: its
    numeric fields convert, it names a transfer, and its payload
    decodes to [raw]. *)
Record decodable_chunk (data : frame) (transfer_id : pyval)
    (seq total_chunks : Z) (raw : list byte) : Prop := {
  dc_type : get data "type" = PStr "FILE_CHUNK";
  dc_transfer_id : get data "transfer_id" = transfer_id;
  dc_named : truthy transfer_id = true;
  dc_seq : py_int (get_or data "seq" (PInt 0)) = Return seq;
  dc_total : py_int (get_or data "total_chunks" (PInt 0)) = Return total_chunks;
  dc_raw : decode_payload (py_or (get data "payload_b64") (PStr "")) = Return raw
}.

(** The checksum field as the engine reads it: [data.get('checksum') or
    '']. *)
Definition checksum_of (data : frame) : pyval :=
  py_or (get data "checksum") (PStr "").

(** The state a chunk of transfer [key] works on: the stored one, or the
    one created from this chunk. *)
Definition state_before (data : frame) (total_chunks : Z)
    (reg : gmap pykey TransferState) (key : pykey) : TransferState :=
  default
    (mkState ∅ (-1)
       (mkMeta total_chunks (get data "chunk_size") (get data "filename")
          (get data "total_size")))
    (reg !! key).

(** ... and what receiving [seq] makes of it. *)
Definition state_after (st : TransferState) (seq : Z) : TransferState :=
  if decide (seq ∈ received st) then st else record_seq st seq.

Definition ack_of (transfer_id : pyval) (seq : Z) (tag checksum : string)
    : control :=
  mkControl "ACK" (Some (PInt seq)) (Some transfer_id)
    (Some [("integrity_status", PStr "valid");
           ("expected", PStr tag);
           ("received", PStr checksum)]).

Definition cum_ack_of (transfer_id : pyval) (hc : Z) : control :=
  mkControl "CUM_ACK" (Some (PInt hc)) (Some transfer_id) None.

(** The test guarding the cumulative acknowledgement. *)
Definition cum_ack_due (st : TransferState) (seq : Z) : bool :=
  negb (meta_total_chunks (meta st) =? 0)
  && ((seq mod 4 =? 0)
      || (highest_contig st =? meta_total_chunks (meta st) - 1)).

(** A MSG frame that carries a checksum: its sequence number converts,
    its payload is a string, its checksum a non-empty string. *)
Record checked_message (data : frame) (seq : Z) (payload checksum : string)
    : Prop := {
  cm_type : get data "type" = PStr "MSG";
  cm_seq : py_int (get_or data "seq" (PInt 0)) = Return seq;
  cm_payload : get_or data "payload" (PStr "") = PStr payload;
  cm_checksum : checksum_of data = PStr checksum;
  cm_tagged : checksum ≠ ""
}.

(** A FILE_CHUNK frame that names a transfer and whose numeric fields
    convert, but whose payload does not decode. *)
Record undecodable_chunk (data : frame) (transfer_id : pyval)
    (seq : Z) : Prop := {
  uc_type : get data "type" = PStr "FILE_CHUNK";
  uc_transfer_id : get data "transfer_id" = transfer_id;
  uc_named : truthy transfer_id = true;
  uc_seq : py_int (get_or data "seq" (PInt 0)) = Return seq;
  uc_total : ∃ total_chunks,
    py_int (get_or data "total_chunks" (PInt 0)) = Return total_chunks;
  uc_raw : ∃ exc,
    decode_payload (py_or (get data "payload_b64") (PStr "")) = Raise exc
}.

(** A RESUME_REQUEST control frame naming a transfer. *)
Record resume_request (data : frame) (transfer_id : pyval) (key : pykey)
    : Prop := {
  rr_type : get data "type" = PStr "CONTROL";
  rr_cmd : get data "cmd" = PStr "RESUME_REQUEST";
  rr_transfer_id : get data "transfer_id" = transfer_id;
  rr_named : truthy transfer_id = true;
  rr_key : py_key transfer_id = Return key
}.

Definition missing_ctl (transfer_id : pyval) (missing : list Z) : control :=
  mkControl "MISSING" None (Some transfer_id)
    (Some [("missing", PList (PInt <$> missing))]).

(** What a resume request is answered with. *)
Definition resume_reply (transfer_id : pyval) (found : option TransferState)
    : control :=
  match found with
  | None => cum_ack_of transfer_id (-1)
  | Some st =>
      match missing_of (meta_total_chunks (meta st)) (received st) with
      | [] => cum_ack_of transfer_id (highest_contig st)
      | missing => missing_ctl transfer_id missing
      end
  end.

(** A FILE_CHUNK frame for [transfer_id] and [seq] that passes the
    integrity check. *)
Definition accepted_chunk (data : frame) (transfer_id : pyval) (seq : Z)
    : Prop :=
  ∃ total_chunks raw checksum,
    decodable_chunk data transfer_id seq total_chunks raw ∧
    checksum_of data = PStr checksum ∧
    integrity_mismatch (calculated_hex raw seq) checksum = false.

(** The sequence numbers recorded for [key], none if there is no
    entry. *)
Definition received_at (reg : gmap pykey TransferState) (key : pykey)
    : gset Z :=
  match reg !! key with
  | Some st => received st
  | None => ∅
  end.

(** The ['reason'] entry of a control's meta dictionary. *)
Definition reason_of (c : control) : option pyval :=
  m ← c_meta c; snd <$> find (λ kv, String.eqb kv.1 "reason") m.

Definition registry_inv (reg : gmap pykey TransferState) : Prop :=
  ∀ key st, reg !! key = Some st → contig_inv st.

Definition is_lower_hex (c : ascii) : bool :=
  let n := nat_of_ascii c in
  ((48 <=? n) && (n <=? 57) || (97 <=? n) && (n <=? 102))%nat.

Fixpoint all_lower_hex (s : string) : bool :=
  match s with
  | EmptyString => true
  | String c r => is_lower_hex c && all_lower_hex r
  end.

(** From the spec's words, "compares case-insensitively": two strings
    are equal up to the case of the letters A to Z when they have the
    same length and, place by place, the same character or the capital
    and the small form of one letter.  Written without [lower], to be
    compared with the comparison the engine makes. *)
Definition same_letter (a b : ascii) : bool :=
  let m := nat_of_ascii a in
  let n := nat_of_ascii b in
  ((m =? n) || (65 <=? m) && (m <=? 90) && (n =? m + 32)
   || (65 <=? n) && (n <=? 90) && (m =? n + 32))%nat.

Fixpoint case_insensitive_eq (s t : string) : bool :=
  match s, t with
  | EmptyString, EmptyString => true
  | String a s', String b t' => same_letter a b && case_insensitive_eq s' t'
  | _, _ => false
  end.

(* ===================================================================== *)
(** * Concrete frames                                                    *)
(* ===================================================================== *)

Module Scenario.

(** A plain message without checksum. *)
Definition message : frame :=
  list_to_map [("type", PStr "MSG"); ("seq", PInt 7); ("from", PStr "alice");
               ("to", PStr "room:test"); ("payload", PStr "hello")].

(** Chunk [seq] of a four-chunk transfer: eight bytes, each equal to
    [seq], in base64. *)
Definition chunk_b64 (seq : Z) : string :=
  match seq with
  | 0 => "AAAAAAAAAAA="
  | 1 => "AQEBAQEBAQE="
  | 2 => "AgICAgICAgI="
  | _ => "AwMDAwMDAwM="
  end.

Definition chunk_raw (seq : Z) : list byte := replicate 8 (byte_of_Z seq).

Definition transfer : pyval := PStr "transfer-123".

Definition chunk_with (seq : Z) (checksum : pyval) : frame :=
  list_to_map [("type", PStr "FILE_CHUNK"); ("transfer_id", transfer);
               ("seq", PInt seq); ("total_chunks", PInt 4);
               ("chunk_size", PInt 8); ("filename", PStr "blob.bin");
               ("total_size", PInt 32); ("checksum", checksum);
               ("payload_b64", PStr (chunk_b64 seq))].

(** The chunk as a conforming sender builds it. *)
Definition chunk (seq : Z) : frame :=
  chunk_with seq (PStr (calculated_hex (chunk_raw seq) seq)).

Definition resume : frame :=
  list_to_map [("type", PStr "CONTROL"); ("cmd", PStr "RESUME_REQUEST");
               ("transfer_id", transfer)].

(** Chunks 0, 2, 1 have arrived; 3 is outstanding. *)
Definition partial : list (frame * string) :=
  [(chunk 0, "sid-1"); (chunk 2, "sid-1"); (chunk 1, "sid-1")].

Definition complete : list (frame * string) :=
  partial ++ [(chunk 3, "sid-1")].

(** The registry once chunks 0, 2 and 1 have been accepted. *)
Definition three_of_four_state : TransferState :=
  mkState {[0; 1; 2]} 2 (mkMeta 4 (PInt 8) (PStr "blob.bin") (PInt 32)).

Definition three_of_four : world :=
  mkWorld {[KStr "transfer-123" := three_of_four_state]} [].

(** A chunk whose payload is not base64: one data character. *)
Definition undecodable : frame :=
  <["payload_b64" := PStr "A"]> (chunk 0).


(** The plain message with its integrity value in capitals. *)
Definition shouted : frame :=
  <["checksum" := PStr "3610A681"]> message.

End Scenario.

(** Discharges [accepted_chunk] for one of the conforming chunks by
    evaluation. *)
Ltac conforming_chunk seq :=
  exists 4, (Scenario.chunk_raw seq),
    (calculated_hex (Scenario.chunk_raw seq) seq);
  (split; [constructor | split]); vm_compute; reflexivity.

(* ===================================================================== *)
(** * The attack simulation                                              *)
(* ===================================================================== *)

(** [v + n] for an integer literal [n]: addition on numbers, a
    [TypeError] on everything else a frame can hold. *)
Definition py_add_int (v : pyval) (n : Z) : outcome pyval :=
  let dq := String (ascii_of_nat 34) EmptyString in
  match v with
  | PInt z => Return (PInt (z + n))
  | PBool b => Return (PInt (Z.b2z b + n))
  | PNone => Raise (TypeError
      "unsupported operand type(s) for +: 'NoneType' and 'int'")
  | PStr _ => Raise (TypeError
      ("can only concatenate str (not " +:+ dq +:+ "int" +:+ dq +:+ ") to str"))
  | PList _ => Raise (TypeError
      ("can only concatenate list (not " +:+ dq +:+ "int" +:+ dq
       +:+ ") to list"))
  end.

(** [simulate_mitm_attack] rewrites ['seq'] in place and leaves the
    checksum alone; the frame it leaves behind is what the caller goes
    on with. *)
Definition simulate_mitm_attack (data : frame) : outcome frame :=
  match data !! "seq" with
  | Some original_seq =>
      match py_add_int original_seq 1000 with
      | Return shifted => Return (<["seq" := shifted]> data)
      | Raise exc => Raise exc
      end
  | None => Return data
  end.

(* ===================================================================== *)
(** * Rooms, members and chat messages                                   *)
(* ===================================================================== *)

(** [repr(v)] and [str(v)]; the latter is what an f-string puts in
    place of [{v}].  Quotes inside a string are not escaped. *)
Fixpoint py_repr (v : pyval) : string :=
  match v with
  | PNone => "None"
  | PBool b => if b then "True" else "False"
  | PInt z => pretty z
  | PStr s => "'" +:+ s +:+ "'"
  | PList l =>
      "[" +:+
      (fix items (l : list pyval) : string :=
         match l with
         | [] => ""
         | [x] => py_repr x
         | x :: r => py_repr x +:+ ", " +:+ items r
         end) l
      +:+ "]"
  end.

Definition py_str (v : pyval) : string :=
  match v with
  | PStr s => s
  | _ => py_repr v
  end.

(** A Python dictionary whose order of keys matters: per entry the hash
    key, the key object first inserted, and the value.  Keys stay in
    order of first insertion. *)
Abbreviation pydict V := (list (pykey * (pyval * V))).

Fixpoint dict_get {V} (d : pydict V) (k : pykey) : option V :=
  match d with
  | [] => None
  | (k', (_, v)) :: r => if decide (k' = k) then Some v else dict_get r k
  end.

(** [d[obj] = v]: a present key keeps its place and its key object. *)
Fixpoint dict_set {V} (d : pydict V) (k : pykey) (obj : pyval) (v : V)
    : pydict V :=
  match d with
  | [] => [(k, (obj, v))]
  | (k', (obj', v')) :: r =>
      if decide (k' = k) then (k', (obj', v)) :: r
      else (k', (obj', v')) :: dict_set r k obj v
  end.

(** [del d[k]] for a key that is present. *)
Definition dict_del {V} (d : pydict V) (k : pykey) : pydict V :=
  filter (λ e, e.1 ≠ k) d.

(** [list(d.keys())]. *)
Definition dict_keys {V} (d : pydict V) : list pyval := (λ e, e.2.1) <$> d.

(** The dictionary built by [on_chat_message]; ['recipient'] is only
    there once the unicast branch has added it. *)
Record msg_data := mkMsg {
  msg_sender : pyval;
  msg_content : pyval;
  msg_type : pyval;
  msg_mode : pyval;
  msg_timestamp : string;
  msg_recipient : option pyval
}.

(** [{'username': username, 'sid': sid}]. *)
Record member := mkMember {
  member_username : pyval;
  member_sid : string
}.

(** One entry of [rooms]. *)
Record Room := mkRoom {
  room_name : pyval;
  room_members : pydict member;
  room_messages : list msg_data
}.

(** What the handlers hand to Socket.IO. *)
Inductive payload :=
| ErrorMessage (message : string)
| JoinSuccess (roomName username : pyval) (history : list msg_data)
| UserList (users : list pyval)
| NewMessage (msg : msg_data).

(** [emit(event, body, room=...)], where a call without [room] goes to
    the calling client, that is to the room named by its sid;
    [join_room] and [leave_room] of the calling client. *)
Inductive effect :=
| Emitted (event : string) (body : payload) (room : pyval)
| Joined (room : pyval) (sid : string)
| Left (room : pyval) (sid : string).

(** The module-level dictionaries [rooms] and [client_sid_map], and the
    calls made into Socket.IO so far, oldest first. *)
Record chat := mkChat {
  rooms : gmap pykey Room;
  client_sid_map : gmap string (pyval * pyval);
  effects : list effect
}.

Definition Chat (A : Type) : Type := chat -> outcome A * chat.

#[global] Instance Chat_ret : MRet Chat := λ A a c, (Return a, c).

#[global] Instance Chat_bind : MBind Chat := λ A B f m c,
  match m c with
  | (Return a, c') => f a c'
  | (Raise e, c') => (Raise e, c')
  end.

Definition builtin {A} (o : outcome A) : Chat A := λ c, (o, c).

Definition the_rooms : Chat (gmap pykey Room) := λ c, (Return (rooms c), c).

Definition the_sid_map : Chat (gmap string (pyval * pyval)) := λ c,
  (Return (client_sid_map c), c).

Definition set_room (k : pykey) (room : Room) : Chat unit := λ c,
  (Return tt, mkChat (<[k := room]> (rooms c)) (client_sid_map c) (effects c)).

Definition del_room (k : pykey) : Chat unit := λ c,
  (Return tt, mkChat (delete k (rooms c)) (client_sid_map c) (effects c)).

Definition set_sid (sid : string) (info : pyval * pyval) : Chat unit := λ c,
  (Return tt, mkChat (rooms c) (<[sid := info]> (client_sid_map c)) (effects c)).

Definition del_sid (sid : string) : Chat unit := λ c,
  (Return tt, mkChat (rooms c) (delete sid (client_sid_map c)) (effects c)).

Definition perform (e : effect) : Chat unit := λ c,
  (Return tt, mkChat (rooms c) (client_sid_map c) (effects c ++ [e])).

Definition emit (event : string) (body : payload) (room : pyval) : Chat unit :=
  perform (Emitted event body room).

Definition join_room (room : pyval) (sid : string) : Chat unit :=
  perform (Joined room sid).

Definition leave_room (room : pyval) (sid : string) : Chat unit :=
  perform (Left room sid).

(** [l[-100:]]. *)
Definition last_100 {A} (l : list A) : list A := drop (length l - 100) l.

(** Writing through the reference to the dictionary appended last. *)
Definition set_last {A} (l : list A) (x : A) : list A :=
  <[pred (length l) := x]> l.

Definition update_user_list (roomName : pyval) : Chat unit :=
  room_key ← builtin (py_key roomName);
  all_rooms ← the_rooms;
  match all_rooms !! room_key with
  | Some room =>
      let user_list := dict_keys (room_members room) in
      emit "user_list_update" (UserList user_list) roomName
  | None => mret tt
  end.

Definition on_connect (sid : string) : Chat unit := mret tt.

Definition on_join_room (data : frame) (sid : string) : Chat unit :=
  let username := get data "username" in
  let roomName := get data "roomName" in
  if negb (truthy username) || negb (truthy roomName) then
    emit "error" (ErrorMessage "Username and Room Name are required.")
      (PStr sid)
  else
    room_key ← builtin (py_key roomName);
    all_rooms ← the_rooms;
    match all_rooms !! room_key with
    | None => emit "error" (ErrorMessage "Room not found.") (PStr sid)
    | Some room =>
        user_key ← builtin (py_key username);
        match dict_get (room_members room) user_key with
        | Some _ =>
            emit "error"
              (ErrorMessage "Username is already taken in this room.")
              (PStr sid)
        | None =>
            if (10 <=? length (room_members room))%nat then
              emit "error" (ErrorMessage "Room is full.") (PStr sid)
            else
              set_room room_key
                (mkRoom (room_name room)
                   (dict_set (room_members room) user_key username
                      (mkMember username sid))
                   (room_messages room));;
              set_sid sid (username, roomName);;
              join_room roomName sid;;
              emit "join_success"
                (JoinSuccess roomName username (room_messages room))
                (PStr sid);;
              update_user_list roomName
        end
    end.

Definition on_create_room (data : frame) (sid : string) : Chat unit :=
  let username := get data "username" in
  let roomName := get data "roomName" in
  if negb (truthy username) || negb (truthy roomName) then
    emit "error" (ErrorMessage "Username and Room Name are required.")
      (PStr sid)
  else
    room_key ← builtin (py_key roomName);
    all_rooms ← the_rooms;
    match all_rooms !! room_key with
    | Some _ =>
        emit "error" (ErrorMessage "Room name already exists.") (PStr sid)
    | None =>
        set_room room_key (mkRoom roomName [] []);;
        on_join_room data sid
    end.

(** [now] is [datetime.now().isoformat()] at the time of the call. *)
Definition on_chat_message (data : frame) (sid : string) (now : string)
    : Chat unit :=
  sid_map ← the_sid_map;
  match sid_map !! sid with
  | None => mret tt
  | Some (sender_username, roomName) =>
      room_key ← builtin (py_key roomName);
      all_rooms ← the_rooms;
      match all_rooms !! room_key with
      | None => mret tt
      | Some room =>
          let mode := get_or data "mode" (PStr "broadcast") in
          let msg := mkMsg sender_username (get data "content")
                       (get_or data "type" (PStr "text")) mode now None in
          let history := last_100 (room_messages room ++ [msg]) in
          set_room room_key
            (mkRoom (room_name room) (room_members room) history);;
          if eq_str mode "broadcast" then
            emit "new_message" (NewMessage msg) roomName
          else if eq_str mode "unicast" then
            let recipient_username := get data "recipient" in
            let msg := mkMsg sender_username (get data "content")
                         (get_or data "type" (PStr "text")) mode now
                         (Some recipient_username) in
            set_room room_key
              (mkRoom (room_name room) (room_members room)
                 (set_last history msg));;
            recipient_key ← builtin (py_key recipient_username);
            match dict_get (room_members room) recipient_key with
            | Some recipient =>
                if truthy (PStr (member_sid recipient)) then
                  emit "new_message" (NewMessage msg)
                    (PStr (member_sid recipient));;
                  emit "new_message" (NewMessage msg) (PStr sid)
                else
                  emit "error"
                    (ErrorMessage
                       ("User '" +:+ py_str recipient_username
                        +:+ "' not found."))
                    (PStr sid)
            | None =>
                emit "error"
                  (ErrorMessage
                     ("User '" +:+ py_str recipient_username
                      +:+ "' not found."))
                  (PStr sid)
            end
          else mret tt
      end
  end.

Definition on_disconnect (sid : string) : Chat unit :=
  sid_map ← the_sid_map;
  match sid_map !! sid with
  | None => mret tt
  | Some (username, roomName) =>
      del_sid sid;;
      leave_room roomName sid;;
      room_key ← builtin (py_key roomName);
      all_rooms ← the_rooms;
      match all_rooms !! room_key with
      | None => mret tt
      | Some room =>
          user_key ← builtin (py_key username);
          match dict_get (room_members room) user_key with
          | None => mret tt
          | Some _ =>
              let members := dict_del (room_members room) user_key in
              match members with
              | [] => del_room room_key
              | _ =>
                  set_room room_key
                    (mkRoom (room_name room) members (room_messages room));;
                  update_user_list roomName
              end
          end
      end
  end.

(** The Socket.IO events the server listens to, and a run of the server
    over a sequence of them, each with the sid of the client it comes
    from.  An exception ends the handler that raised it; what that
    handler had written by then stays. *)
Inductive request :=
| Connect
| CreateRoom (data : frame)
| JoinRoom (data : frame)
| ChatMessage (data : frame) (now : string)
| Disconnect.

Definition dispatch (sid : string) (req : request) : Chat unit :=
  match req with
  | Connect => on_connect sid
  | CreateRoom data => on_create_room data sid
  | JoinRoom data => on_join_room data sid
  | ChatMessage data now => on_chat_message data sid now
  | Disconnect => on_disconnect sid
  end.

Definition serve (reqs : list (string * request)) (c : chat) : chat :=
  fold_left (λ c r, (dispatch r.1 r.2 c).2) reqs c.

Definition no_rooms : chat := mkChat ∅ ∅ [].

Module Lobby.

Definition alice : frame :=
  list_to_map [("username", PStr "alice"); ("roomName", PStr "lobby")].
Definition bob : frame :=
  list_to_map [("username", PStr "bob"); ("roomName", PStr "lobby")].
Definition hello : frame :=
  list_to_map [("content", PStr "hello"); ("sender", PStr "mallory")].
Definition whisper : frame :=
  list_to_map [("content", PStr "psst"); ("mode", PStr "unicast");
               ("recipient", PStr "bob")].
Definition den : frame :=
  list_to_map [("username", PStr "al"); ("roomName", PStr "den")].
Definition den_guest : frame :=
  list_to_map [("username", PStr "guest"); ("roomName", PStr "den")].
Definition nameless : frame :=
  list_to_map [("username", PList [PStr "x"]); ("roomName", PStr "attic")].
Definition shout : frame :=
  list_to_map [("content", PStr "hey"); ("mode", PStr "multicast")].
Definition to_carol : frame :=
  list_to_map [("content", PStr "psst"); ("mode", PStr "unicast");
               ("recipient", PStr "carol")].
Definition carol : frame :=
  list_to_map [("username", PStr "carol"); ("roomName", PStr "lobby")].

Definition member_alice : member := mkMember (PStr "alice") "sid-a".
Definition member_bob : member := mkMember (PStr "bob") "sid-b".

(** The lobby with alice, who created it, and bob. *)
Definition lobby_room : Room :=
  mkRoom (PStr "lobby")
    [(KStr "alice", (PStr "alice", member_alice));
     (KStr "bob", (PStr "bob", member_bob))] [].

Definition two_members : chat :=
  serve [("sid-a", CreateRoom alice); ("sid-b", JoinRoom bob)] no_rooms.
End Lobby.

(* ===================================================================== *)
(** * Vocabulary of the statements about rooms                           *)
(* ===================================================================== *)

(** Bounds every room keeps: distinct member keys, at most ten members,
    at most a hundred messages. *)
Record room_inv (room : Room) : Prop := {
  ri_distinct : NoDup (room_members room).*1;
  ri_capacity : (length (room_members room) ≤ 10)%nat;
  ri_history : (length (room_messages room) ≤ 100)%nat
}.

(** The client [sid] is recorded as [username] in an existing room
    [roomName]. *)
Definition registered (all_rooms : gmap pykey Room) (sid : string)
    (username roomName : pyval) : Prop :=
  ∃ room_key user_key room,
    py_key roomName = Return room_key ∧
    py_key username = Return user_key ∧
    all_rooms !! room_key = Some room ∧
    dict_get (room_members room) user_key = Some (mkMember username sid).

Definition chat_inv (c : chat) : Prop :=
  (∀ k room, rooms c !! k = Some room → room_inv room) ∧
  (∀ sid username roomName,
     client_sid_map c !! sid = Some (username, roomName) →
     registered (rooms c) sid username roomName).

(** The conditions under which [on_join_room] lets the caller in: both
    names given and hashable, the room there, the username free in it,
    and fewer than ten members. *)
Record joining (data : frame) (c : chat) (username roomName : pyval)
    (room_key user_key : pykey) (room : Room) : Prop := {
  jn_username : get data "username" = username;
  jn_roomName : get data "roomName" = roomName;
  jn_named : truthy username = true;
  jn_room_named : truthy roomName = true;
  jn_room_key : py_key roomName = Return room_key;
  jn_user_key : py_key username = Return user_key;
  jn_room : rooms c !! room_key = Some room;
  jn_free : dict_get (room_members room) user_key = None;
  jn_space : (length (room_members room) < 10)%nat
}.

(** The room once [username] has been added under [sid], and the state
    [on_join_room] leaves then. *)
Definition joined_room (room : Room) (user_key : pykey) (username : pyval)
    (sid : string) : Room :=
  mkRoom (room_name room)
    (dict_set (room_members room) user_key username (mkMember username sid))
    (room_messages room).

Definition joined_chat (c : chat) (sid : string) (username roomName : pyval)
    (room_key user_key : pykey) (room : Room) : chat :=
  mkChat (<[room_key := joined_room room user_key username sid]> (rooms c))
    (<[sid := (username, roomName)]> (client_sid_map c))
    (effects c ++
     [Joined roomName sid;
      Emitted "join_success"
        (JoinSuccess roomName username (room_messages room)) (PStr sid);
      Emitted "user_list_update"
        (UserList (dict_keys (room_members room) ++ [username])) roomName]).

(** A refusal: one ['error'] to the caller and nothing else. *)
Definition refused (c : chat) (sid : string) (message : string) : chat :=
  mkChat (rooms c) (client_sid_map c)
    (effects c ++ [Emitted "error" (ErrorMessage message) (PStr sid)]).

(** The dictionary [on_chat_message] builds from a frame: the sender is
    the name the server has recorded, not anything the frame says. *)
Definition message_of (data : frame) (sender : pyval) (now : string)
    (recipient : option pyval) : msg_data :=
  mkMsg sender (get data "content") (get_or data "type" (PStr "text"))
    (get_or data "mode" (PStr "broadcast")) now recipient.

(** The room with another history. *)
Definition with_messages (room : Room) (msgs : list msg_data) : Room :=
  mkRoom (room_name room) (room_members room) msgs.

(** The sender of a chat message: a client recorded under [username]
    for a room that is there. *)
Record posting (c : chat) (sid : string) (username roomName : pyval)
    (room_key : pykey) (room : Room) : Prop := {
  po_sid : client_sid_map c !! sid = Some (username, roomName);
  po_room_key : py_key roomName = Return room_key;
  po_room : rooms c !! room_key = Some room
}.

(** The reply to a unicast whose recipient is not in the room. *)
Definition not_found (recipient_username : pyval) (sid : string) : effect :=
  Emitted "error"
    (ErrorMessage ("User '" +:+ py_str recipient_username +:+ "' not found."))
    (PStr sid).

(** [chat_inv] on the two tables alone. *)
Definition tables_inv (all_rooms : gmap pykey Room)
    (sid_map : gmap string (pyval * pyval)) : Prop :=
  (∀ k room, all_rooms !! k = Some room → room_inv room) ∧
  (∀ sid username roomName,
     sid_map !! sid = Some (username, roomName) →
     registered all_rooms sid username roomName).


(* ===================================================================== *)
(** * Proof tools                                                        *)
(* ===================================================================== *)

#[global] Arguments get : simpl never.
#[global] Arguments get_or : simpl never.
#[global] Arguments py_or : simpl never.
#[global] Arguments py_int : simpl never.
#[global] Arguments py_key : simpl never.
#[global] Arguments truthy : simpl never.
#[global] Arguments decode_payload : simpl never.
#[global] Arguments calculated_hex : simpl never.
#[global] Arguments format_08x : simpl never.
#[global] Arguments lower : simpl never.
#[global] Arguments record_seq : simpl never.
#[global] Arguments missing_of : simpl never.
#[global] Arguments payload_bytes_of : simpl never.
#[global] Arguments py_lower : simpl never.

Ltac run_engine :=
  unfold mbind, M_bind, mret, M_ret, call, try_except, _send_control, send,
    lookup_state, store_state;
  simpl.

(* ===================================================================== *)
(** * The contiguous prefix                                              *)
(* ===================================================================== *)

Lemma contig_inv_highest st :
  contig_inv st → is_highest_contig (received st) (highest_contig st).
Proof.
  intros (Hlo & Hpre & Hnext).
  destruct (decide (highest_contig st = -1)) as [E | NE].
  - left. split; [| done]. by rewrite E in Hnext.
  - right. split; [lia |]. split; [done |].
    intros n Hn.
    destruct (decide (n ≤ highest_contig st)) as [| Hgt]; [done |].
    exfalso. apply Hnext, Hn. lia.
Qed.

Lemma is_highest_contig_unique recv a b :
  is_highest_contig recv a → is_highest_contig recv b → a = b.
Proof.
  intros [[Ha ->] | (Ha & Hpa & Hma)] [[Hb ->] | (Hb & Hpb & Hmb)].
  - done.
  - exfalso. apply Ha, Hpb. lia.
  - exfalso. apply Hb, Hpa. lia.
  - specialize (Hma _ Hpb). specialize (Hmb _ Hpa). lia.
Qed.

Lemma above_step recv hc :
  hc + 1 ∈ recv → (size (above recv (hc + 1)) < size (above recv hc))%nat.
Proof.
  intros Hin. apply subset_size. apply strict_spec_alt. split.
  - intros x. unfold above. rewrite !elem_of_filter. intros [? ?]. split; [lia | done].
  - intros Heq.
    assert (hc + 1 ∈ above recv (hc + 1)) as Hbad.
    { rewrite Heq. apply elem_of_filter. split; [lia | done]. }
    apply elem_of_filter in Hbad. lia.
Qed.

(** With enough fuel the loop stops because its condition fails, having
    walked only over received numbers. *)
Lemma advance_spec fuel recv hc :
  (size (above recv hc) ≤ fuel)%nat →
  hc ≤ advance fuel recv hc ∧
  (∀ i, hc < i ≤ advance fuel recv hc → i ∈ recv) ∧
  advance fuel recv hc + 1 ∉ recv.
Proof.
  revert hc. induction fuel as [| fuel IH]; intros hc Hfuel; simpl.
  - split; [lia |]. split; [intros i ?; lia |].
    intros Hin.
    assert (hc + 1 ∈ above recv hc) as Hmem.
    { apply elem_of_filter. split; [lia | done]. }
    assert (size (above recv hc) = 0%nat) as Hz by lia.
    apply size_empty_inv in Hz. set_solver.
  - destruct (decide (hc + 1 ∈ recv)) as [Hin | Hout].
    + pose proof (above_step recv hc Hin) as Hlt.
      destruct (IH (hc + 1)) as (Hle & Hmid & Hstop); [lia |].
      split; [lia |]. split; [| done].
      intros i Hi. destruct (decide (i = hc + 1)) as [-> | Hne]; [done |].
      apply Hmid. lia.
    + split; [lia |]. split; [intros i ?; lia | done].
Qed.

Lemma above_size recv hc : (size (above recv hc) ≤ size recv)%nat.
Proof. apply subseteq_size. intros x. unfold above. set_solver. Qed.

(** Any two amounts of fuel that cover the elements above [hc] give the
    same result: the loop has stopped before either runs out. *)
Lemma advance_fuel_irrelevant fuel fuel' recv hc :
  (size (above recv hc) ≤ fuel)%nat →
  (size (above recv hc) ≤ fuel')%nat →
  advance fuel recv hc = advance fuel' recv hc.
Proof.
  revert fuel' hc. induction fuel as [| fuel IH]; intros fuel' hc Hf Hf'.
  - destruct (advance_spec 0 recv hc Hf) as (_ & _ & Hstop). simpl in Hstop.
    destruct fuel' as [| fuel']; [done |]. simpl. by rewrite decide_False.
  - simpl. destruct (decide (hc + 1 ∈ recv)) as [Hin | Hout].
    + pose proof (above_step recv hc Hin) as Hlt.
      destruct fuel' as [| fuel']; [lia |].
      simpl. rewrite decide_True by done. apply IH; lia.
    + destruct fuel' as [| fuel']; [done |]. simpl. by rewrite decide_False.
Qed.

Lemma record_seq_inv st seq :
  contig_inv st → contig_inv (record_seq st seq).
Proof.
  intros (Hlo & Hpre & _). unfold contig_inv, record_seq. simpl.
  set (recv := {[seq]} ∪ received st).
  destruct (advance_spec (size recv) recv (highest_contig st))
    as (Hle & Hmid & Hstop); [apply above_size |].
  split; [lia |]. split; [| done].
  intros i Hi.
  destruct (decide (i ≤ highest_contig st)) as [Hold | Hnew].
  - subst recv. apply elem_of_union_r, Hpre. lia.
  - apply Hmid. lia.
Qed.

Lemma record_seq_received st seq :
  received (record_seq st seq) = {[seq]} ∪ received st.
Proof. done. Qed.

Lemma record_seq_meta st seq : meta (record_seq st seq) = meta st.
Proof. done. Qed.

(* ===================================================================== *)
(** * Paths through [handle_reliable_event]                              *)
(* ===================================================================== *)

#[local] Opaque record_seq.

Lemma chunk_integrity_fail data sid w transfer_id seq total_chunks raw checksum :
  decodable_chunk data transfer_id seq total_chunks raw →
  checksum_of data = PStr checksum →
  integrity_mismatch (calculated_hex raw seq) checksum = true →
  handle_reliable_event data sid w =
    (Return (mkResult (PStr "FILE_CHUNK") sid transfer_id
               (Some (PStr "INTEGRITY_FAIL")) (Some seq)
               (Some "integrity_mismatch")),
     mkWorld (transfer_states w)
       (sent w ++
        [mkControl "INTEGRITY_FAIL" (Some (PInt seq)) (Some transfer_id)
           (Some [("reason", PStr "integrity_compromised");
                  ("expected", PStr (calculated_hex raw seq));
                  ("received", PStr checksum);
                  ("seq", PInt seq)])])).
Proof.
  intros [Htype Htid Hnamed Hseq Htotal Hraw] Hck Hbad.
  unfold checksum_of in Hck. unfold integrity_mismatch in Hbad.
  unfold handle_reliable_event.
  rewrite Htype, Htid, Hseq, Htotal, Hnamed, Hraw, Hck. run_engine.
  by rewrite Hbad.
Qed.

Lemma chunk_accepted data sid w transfer_id seq total_chunks raw checksum key :
  decodable_chunk data transfer_id seq total_chunks raw →
  checksum_of data = PStr checksum →
  integrity_mismatch (calculated_hex raw seq) checksum = false →
  py_key transfer_id = Return key →
  let st := state_after
              (state_before data total_chunks (transfer_states w) key) seq in
  handle_reliable_event data sid w =
    (Return (mkResult (PStr "FILE_CHUNK") sid transfer_id
               (Some (PStr "ACK")) (Some seq) None),
     mkWorld (<[key := st]> (transfer_states w))
       (sent w ++
        ack_of transfer_id seq (calculated_hex raw seq) checksum ::
        (if cum_ack_due st seq
         then [cum_ack_of transfer_id (highest_contig st)] else []))).
Proof.
  intros [Htype Htid Hnamed Hseq Htotal Hraw] Hck Hok Hkey.
  unfold checksum_of in Hck. unfold integrity_mismatch in Hok.
  unfold handle_reliable_event.
  rewrite Htype, Htid, Hseq, Htotal, Hnamed, Hraw, Hck, Hkey. run_engine.
  rewrite Hok. simpl.
  unfold state_before, state_after, cum_ack_due, ack_of, cum_ack_of.
  destruct (transfer_states w !! key) as [st0 |] eqn:Hfound; simpl.
  - destruct (decide (seq ∈ received st0)) as [Hin | Hout]; simpl.
    + rewrite insert_id by done.
      destruct (meta_total_chunks _ =? 0); simpl;
        [| destruct (seq mod 4 =? 0); destruct (highest_contig _ =? _)];
        simpl; rewrite <- ?app_assoc; reflexivity.
    + destruct (meta_total_chunks _ =? 0); simpl;
        [| destruct (seq mod 4 =? 0); destruct (highest_contig _ =? _)];
        simpl; rewrite <- ?app_assoc; reflexivity.
  - destruct (decide (seq ∈ ∅)) as [Hin | Hout]; [set_solver |]. simpl.
    rewrite insert_insert_eq.
    destruct (meta_total_chunks _ =? 0); simpl;
      [| destruct (seq mod 4 =? 0); destruct (highest_contig _ =? _)];
      simpl; rewrite <- ?app_assoc; reflexivity.
Qed.

(** What any call can do to [transfer_states]: nothing, or record one
    sequence number in one entry (possibly created just before). *)
Lemma handle_states data sid w :
  let reg := transfer_states w in
  let reg' := transfer_states (handle_reliable_event data sid w).2 in
  reg' = reg ∨
  ∃ key seq st0,
    (reg !! key = Some st0 ∨
     (reg !! key = None ∧ received st0 = ∅ ∧ highest_contig st0 = -1)) ∧
    reg' = <[key := record_seq st0 seq]> reg.
Proof.
  unfold handle_reliable_event. run_engine.
  repeat (case_match; simpl in *; simplify_eq; try (by left)).
  all: right; eexists _, _, _; split; cycle 1.
  all: simpl; rewrite ?insert_insert_eq; try reflexivity.
  all: first [left; eassumption | right; done].
Qed.

(** A call that raises has done nothing before: every raising builtin
    is reached ahead of the first [send] and the first write. *)
Lemma handle_raise data sid w e w' :
  handle_reliable_event data sid w = (Raise e, w') → w' = w.
Proof.
  unfold handle_reliable_event. run_engine.
  repeat (case_match; simpl in *; simplify_eq; try done).
  all: by intros [= _ ->].
Qed.

(** ** Invariant of every reachable registry *)

Lemma handle_registry_inv data sid w :
  registry_inv (transfer_states w) →
  registry_inv (transfer_states (handle_reliable_event data sid w).2).
Proof.
  intros Hinv.
  destruct (handle_states data sid w)
    as [-> | (key & seq & st0 & Hst0 & ->)]; [done |].
  intros key' st Hlook.
  destruct (decide (key = key')) as [<- | Hne].
  - rewrite lookup_insert_eq in Hlook. simplify_eq.
    apply record_seq_inv.
    destruct Hst0 as [Hold | (_ & Hrecv & Hhc)]; [by eapply Hinv |].
    unfold contig_inv, prefix_received. rewrite Hrecv, Hhc.
    split; [lia |]. split; [intros i ?; lia | set_solver].
  - rewrite lookup_insert_ne in Hlook by done. by eapply Hinv.
Qed.

Lemma run_registry_inv frames w :
  registry_inv (transfer_states w) →
  registry_inv (transfer_states (run frames w)).
Proof.
  revert w. induction frames as [| ev frames IH]; intros w Hinv; [done |].
  simpl. apply IH, handle_registry_inv, Hinv.
Qed.

(* ===================================================================== *)
(** * The integrity value as a string                                    *)
(* ===================================================================== *)

Lemma lower_ascii_hex c : is_lower_hex c = true → lower_ascii c = c.
Proof.
  destruct c as [[] [] [] [] [] [] [] []]; vm_compute; congruence.
Qed.

Lemma lower_hex s : all_lower_hex s = true → lower s = s.
Proof.
  induction s as [| c r IH]; [done |]. simpl.
  intros [Hc Hr]%andb_prop.
  change (lower (String c r)) with (String (lower_ascii c) (lower r)).
  by rewrite lower_ascii_hex, IH.
Qed.

Lemma all_lower_hex_app a b :
  all_lower_hex (a +:+ b) = all_lower_hex a && all_lower_hex b.
Proof.
  induction a as [| c a IH]; [done |]. simpl. by rewrite IH, andb_assoc.
Qed.

Lemma all_lower_hex_zeros n : all_lower_hex (zeros n) = true.
Proof. induction n as [| n IH]; [done |]. simpl. by rewrite IH. Qed.

Lemma all_lower_hex_of_pos p rest :
  all_lower_hex (HexString.Raw.of_pos p rest) = all_lower_hex rest.
Proof.
  assert (∀ (n : nat) p rest,
            (Pos.size_nat p ≤ n)%nat →
            all_lower_hex (HexString.Raw.of_pos p rest) = all_lower_hex rest)
    as Hbounded.
  { clear p rest. induction n as [| n IH]; intros p rest Hn.
    - destruct p; simpl in Hn; lia.
    - do 4 try destruct p as [p | p |]; try reflexivity;
        cbn [HexString.Raw.of_pos];
        (rewrite IH; [reflexivity | simpl in Hn; lia]). }
  by apply (Hbounded (Pos.size_nat p)).
Qed.

Lemma all_lower_hex_digits v : all_lower_hex (hex_digits v) = true.
Proof. destruct v as [| p]; [done |]. apply all_lower_hex_of_pos. Qed.

Lemma all_lower_hex_zfill width v :
  all_lower_hex (zfill width (hex_digits v)) = true.
Proof.
  unfold zfill.
  by rewrite all_lower_hex_app, all_lower_hex_zeros, all_lower_hex_digits.
Qed.

(** Reading the digits back. *)
Lemma hex_value_zeros n s :
  HexString.Raw.to_N (zeros n +:+ s) 0 = HexString.Raw.to_N s 0.
Proof. induction n as [| n IH]; [done |]. simpl. apply IH. Qed.

Lemma hex_value_zfill width v :
  HexString.Raw.to_N (zfill width (hex_digits v)) 0 = v.
Proof.
  unfold zfill. rewrite hex_value_zeros.
  destruct v as [| p]; [done |]. simpl.
  by rewrite HexString.Raw.to_N_of_pos.
Qed.

Lemma zfill_inj width a b :
  zfill width (hex_digits a) = zfill width (hex_digits b) → a = b.
Proof.
  intros Heq. rewrite <- (hex_value_zfill width a), Heq.
  apply hex_value_zfill.
Qed.

Lemma format_08x_signed v :
  all_lower_hex (format_08x v) = (0 <=? v).
Proof.
  destruct v as [| p | p]; unfold format_08x;
    [apply all_lower_hex_zfill .. | done].
Qed.

Lemma format_08x_inj x y : format_08x x = format_08x y → x = y.
Proof.
  intros Heq.
  pose proof (format_08x_signed x) as Hx.
  pose proof (format_08x_signed y) as Hy.
  rewrite Heq, Hy in Hx.
  destruct x as [| p | p], y as [| q | q]; try discriminate Hx;
    unfold format_08x in Heq.
  - done.
  - apply zfill_inj in Heq. discriminate.
  - apply zfill_inj in Heq. discriminate.
  - apply zfill_inj in Heq. by simplify_eq.
  - injection Heq as Heq.
    apply (zfill_inj 7 (N.pos p) (N.pos q)) in Heq. by simplify_eq.
Qed.

Lemma lower_format_08x v : lower (format_08x v) = format_08x v.
Proof.
  destruct v as [| p | p]; unfold format_08x;
    try (apply lower_hex, all_lower_hex_zfill).
  change (lower (String "-" ?s)) with (String "-" (lower s)).
  f_equal. apply lower_hex, all_lower_hex_zfill.
Qed.

(** Width: never below eight characters, exactly eight for a value of
    32 bits. *)
Lemma length_zeros n : String.length (zeros n) = n.
Proof. induction n as [| n IH]; [done |]. simpl. by rewrite IH. Qed.

Lemma length_append a b :
  String.length (a +:+ b) = (String.length a + String.length b)%nat.
Proof. induction a as [| c a IH]; [done |]. simpl. by rewrite IH. Qed.

Lemma length_zfill width s :
  String.length (zfill width s) = Nat.max width (String.length s).
Proof.
  unfold zfill. rewrite length_append, length_zeros. lia.
Qed.

Lemma length_of_pos (k : nat) : ∀ p rest,
  Z.pos p < 16 ^ Z.of_nat k →
  (String.length (HexString.Raw.of_pos p rest) ≤ k + String.length rest)%nat.
Proof.
  induction k as [| k IH]; intros p rest Hp.
  - simpl in Hp. lia.
  - rewrite Nat2Z.inj_succ, Z.pow_succ_r in Hp by lia.
    do 4 try destruct p as [p | p |]; cbn [HexString.Raw.of_pos];
      try (simpl; lia);
      (etrans; [apply IH; lia | simpl; lia]).
Qed.

Lemma length_format_08x v :
  0 ≤ v < 2 ^ 32 → String.length (format_08x v) = 8%nat.
Proof.
  intros [Hlo Hhi]. destruct v as [| p | p]; [done | | lia].
  unfold format_08x. rewrite length_zfill. simpl.
  pose proof (length_of_pos 8 p "") as Hlen. simpl in Hlen.
  change (16 ^ 8) with (2 ^ 32) in Hlen. lia.
Qed.

Lemma length_format_08x_ge v : (8 ≤ String.length (format_08x v))%nat.
Proof.
  destruct v as [| p | p]; unfold format_08x; simpl;
    rewrite ?length_zfill; lia.
Qed.

Lemma lxor_cancel_l a x y : Z.lxor a x = Z.lxor a y → x = y.
Proof.
  intros Heq.
  rewrite <- (Z.lxor_0_l x), <- (Z.lxor_0_l y), <- (Z.lxor_nilpotent a).
  by rewrite !Z.lxor_assoc, Heq.
Qed.

Lemma calculated_hex_range raw seq :
  0 ≤ seq < 2 ^ 32 →
  0 ≤ Z.lxor (Z.land (crc32 raw) 0xFFFFFFFF) seq < 2 ^ 32.
Proof.
  intros [Hlo Hhi].
  change 0xFFFFFFFF with (Z.ones 32). rewrite Z.land_ones by lia.
  pose proof (Z.mod_pos_bound (crc32 raw) (2 ^ 32) eq_refl) as [Hclo Hchi].
  set (c := crc32 raw mod 2 ^ 32) in *.
  split; [by apply Z.lxor_nonneg |].
  destruct (decide (Z.lxor c seq = 0)) as [-> | Hnz]; [done |].
  assert (0 < Z.lxor c seq) as Hpos.
  { pose proof (proj2 (Z.lxor_nonneg c seq)). lia. }
  apply Z.log2_lt_pow2; [done |].
  pose proof (Z.log2_lxor c seq Hclo Hlo) as Hlog.
  assert (Z.log2 c < 32) as Hc.
  { destruct (decide (c = 0)) as [-> | ?]; [done |].
    apply Z.log2_lt_pow2; lia. }
  assert (Z.log2 seq < 32) as Hs.
  { destruct (decide (seq = 0)) as [-> | ?]; [done |].
    apply Z.log2_lt_pow2; lia. }
  lia.
Qed.

(* ===================================================================== *)
(** * Remaining paths                                                    *)
(* ===================================================================== *)

Lemma py_or_falsy v d : truthy v = false → py_or v d = d.
Proof. unfold py_or. by intros ->. Qed.

(** The MSG path never reaches [transfer_states]. *)
Lemma msg_registry data sid w :
  get data "type" = PStr "MSG" →
  transfer_states (handle_reliable_event data sid w).2 = transfer_states w.
Proof.
  intros Htype. unfold handle_reliable_event. rewrite Htype. run_engine.
  repeat (case_match; simpl in *; simplify_eq; try done).
Qed.

Lemma msg_integrity_fail data sid w seq payload checksum :
  checked_message data seq payload checksum →
  integrity_mismatch (calculated_hex (encode_utf8 payload) seq) checksum
    = true →
  handle_reliable_event data sid w =
    (Return (mkResult (PStr "MSG") sid (get data "transfer_id")
               (Some (PStr "INTEGRITY_FAIL")) (Some seq) None),
     mkWorld (transfer_states w)
       (sent w ++
        [mkControl "INTEGRITY_FAIL" (Some (PInt seq)) (Some (PStr "MSG"))
           (Some [("reason", PStr "integrity_compromised");
                  ("expected",
                   PStr (calculated_hex (encode_utf8 payload) seq));
                  ("received", PStr checksum);
                  ("seq", PInt seq);
                  ("type", PStr "MSG")])])).
Proof.
  intros [Htype Hseq Hpayload Hck Htagged] Hbad.
  unfold checksum_of in Hck. unfold integrity_mismatch in Hbad.
  unfold handle_reliable_event.
  rewrite Htype, Hseq, Hpayload, Hck. run_engine.
  assert (truthy (PStr checksum) = true) as ->.
  { unfold truthy. by apply negb_true_iff, String.eqb_neq. }
  unfold payload_bytes_of, py_lower. simpl. by rewrite Hbad.
Qed.

Lemma msg_untagged data sid w seq :
  get data "type" = PStr "MSG" →
  truthy (get data "checksum") = false →
  py_int (get_or data "seq" (PInt 0)) = Return seq →
  handle_reliable_event data sid w =
    (Return (mkResult (PStr "MSG") sid (get data "transfer_id")
               (Some (PStr "ACK")) (Some seq) None),
     mkWorld (transfer_states w)
       (sent w ++ [mkControl "ACK" (Some (PInt seq)) None None])).
Proof.
  intros Htype Hck Hseq. unfold handle_reliable_event.
  rewrite Htype, Hseq, (py_or_falsy _ _ Hck). by run_engine.
Qed.

Lemma chunk_undecodable data sid w transfer_id seq :
  undecodable_chunk data transfer_id seq →
  handle_reliable_event data sid w =
    (Return (mkResult (PStr "FILE_CHUNK") sid transfer_id
               (Some (PStr "NACK")) (Some seq) (Some "invalid_base64")),
     mkWorld (transfer_states w)
       (sent w ++
        [mkControl "NACK" (Some (PInt seq)) (Some transfer_id)
           (Some [("reason", PStr "invalid_base64")])])).
Proof.
  intros [Htype Htid Hnamed Hseq [total Htotal] [exc Hraw]].
  unfold handle_reliable_event.
  rewrite Htype, Htid, Hseq, Htotal, Hnamed, Hraw. by run_engine.
Qed.

Lemma resume_answered data sid w transfer_id key :
  resume_request data transfer_id key →
  handle_reliable_event data sid w =
    (Return (mkResult (PStr "CONTROL") sid transfer_id
               (Some (PStr "RESUME_REQUEST")) None None),
     mkWorld (transfer_states w)
       (sent w ++ [resume_reply transfer_id (transfer_states w !! key)])).
Proof.
  intros [Htype Hcmd Htid Hnamed Hkey]. unfold handle_reliable_event.
  rewrite Htype, Hcmd, Htid, Hnamed, Hkey. run_engine.
  unfold resume_reply, cum_ack_of, missing_ctl.
  destruct (transfer_states w !! key) as [st |]; [| done].
  by destruct (missing_of _ _).
Qed.

(** ** [range] and the missing list *)

Lemma elem_of_range total i : i ∈ range total ↔ 0 ≤ i < total.
Proof.
  unfold range. rewrite list_elem_of_fmap. split.
  - intros (n & -> & Hn). apply elem_of_seq in Hn. lia.
  - intros Hi. exists (Z.to_nat i). split; [lia |].
    apply elem_of_seq. lia.
Qed.

Lemma range_sorted total : StronglySorted Z.lt (range total).
Proof.
  unfold range. generalize (Z.to_nat total) as n. generalize 0%nat as m.
  intros m n. revert m. induction n as [| n IH]; intros m; simpl.
  - constructor.
  - constructor; [apply IH |].
    apply Forall_forall. intros x (k & -> & Hk)%list_elem_of_fmap.
    apply elem_of_seq in Hk. lia.
Qed.

Lemma elem_of_missing_of total recv i :
  i ∈ missing_of total recv ↔ 0 ≤ i < total ∧ i ∉ recv.
Proof.
  unfold missing_of. rewrite list_elem_of_filter, elem_of_range. tauto.
Qed.

Lemma missing_of_sorted total recv :
  StronglySorted Z.lt (missing_of total recv).
Proof.
  unfold missing_of.
  induction (range_sorted total) as [| a l Hl IH Ha]; [constructor |].
  rewrite filter_cons. destruct (decide (a ∉ recv)); [| done].
  constructor; [done |].
  rewrite Forall_forall in Ha |- *.
  intros x [_ Hx]%list_elem_of_filter. by apply Ha.
Qed.

(** A strictly ascending list is determined by its elements. *)
Lemma sorted_singleton (l : list Z) k :
  StronglySorted Z.lt l → (∀ i, i ∈ l ↔ i = k) → l = [k].
Proof.
  intros Hsorted Hmem.
  destruct l as [| a l].
  - exfalso. eapply not_elem_of_nil, Hmem. reflexivity.
  - assert (a = k) as -> by (apply Hmem; left).
    destruct l as [| b l]; [done |]. exfalso.
    assert (b = k) as -> by (apply Hmem; right; left).
    apply StronglySorted_inv in Hsorted as [_ Hlt].
    apply Forall_inv in Hlt. lia.
Qed.

(* ===================================================================== *)
(** * Sessions of accepted chunks                                        *)
(* ===================================================================== *)

Lemma state_after_received st seq :
  received (state_after st seq) = {[seq]} ∪ received st.
Proof.
  unfold state_after. destruct (decide (seq ∈ received st)).
  - set_solver.
  - apply record_seq_received.
Qed.

Lemma state_after_member st seq : seq ∈ received (state_after st seq).
Proof. rewrite state_after_received. set_solver. Qed.

Lemma state_after_idem st seq :
  state_after (state_after st seq) seq = state_after st seq.
Proof.
  unfold state_after at 1. by rewrite decide_True by apply state_after_member.
Qed.

Lemma state_after_meta st seq : meta (state_after st seq) = meta st.
Proof.
  unfold state_after. destruct (decide (seq ∈ received st)); [done |].
  apply record_seq_meta.
Qed.

Lemma handle_accepted_received data sid w transfer_id key seq :
  accepted_chunk data transfer_id seq →
  py_key transfer_id = Return key →
  let reg' := transfer_states (handle_reliable_event data sid w).2 in
  is_Some (reg' !! key) ∧
  received_at reg' key = {[seq]} ∪ received_at (transfer_states w) key.
Proof.
  intros (total & raw & checksum & Hdc & Hck & Hok) Hkey.
  rewrite (chunk_accepted _ sid w _ _ _ _ _ _ Hdc Hck Hok Hkey). simpl.
  unfold received_at. rewrite lookup_insert_eq. split; [eauto |].
  rewrite state_after_received. unfold state_before.
  by destruct (transfer_states w !! key).
Qed.

Lemma run_accepted_received chunks order transfer_id key w :
  Forall2 (λ ev seq, accepted_chunk ev.1 transfer_id seq) chunks order →
  py_key transfer_id = Return key →
  received_at (transfer_states (run chunks w)) key
    = list_to_set order ∪ received_at (transfer_states w) key ∧
  (order ≠ [] → is_Some (transfer_states (run chunks w) !! key)).
Proof.
  intros Hall Hkey. revert w.
  induction Hall as [| [data sid] seq chunks order Hacc Hall IH]; intros w.
  - split; [set_solver | done].
  - simpl in Hacc.
    destruct (handle_accepted_received data sid w _ _ _ Hacc Hkey)
      as [Hsome Hrecv].
    simpl. destruct (IH (handle_reliable_event data sid w).2) as [Hr Hs].
    split.
    + rewrite Hr, Hrecv. set_solver.
    + intros _. destruct order as [| seq' order]; [| by apply Hs].
      inversion Hall; subst. simpl. done.
Qed.

(** ** The Socket.IO handler *)

Lemma on_reliable_event_returns data sid w r w' :
  handle_reliable_event data sid w = (Return r, w') →
  on_reliable_event data sid w = (Return tt, w').
Proof. intros H. unfold on_reliable_event. run_engine. by rewrite H. Qed.

Lemma on_reliable_event_raises data sid w exc w' :
  handle_reliable_event data sid w = (Raise exc, w') →
  on_reliable_event data sid w =
    (Return tt,
     mkWorld (transfer_states w)
       (sent w ++
        [mkControl "NACK" (Some (get_or data "seq" (PInt (-1)))) None
           (Some [("reason", PStr ("exception:" +:+ exn_str exc))])])).
Proof.
  intros H. pose proof (handle_raise _ _ _ _ _ H) as ->.
  unfold on_reliable_event. run_engine. by rewrite H.
Qed.

#[local] Transparent record_seq.

(** ** A whole session

    Four chunks delivered in the order 0, 2, 1, a resume request, then
    chunk 3: every chunk is acknowledged, the resume request is answered
    with the one missing number, the last chunk triggers the
    cumulative acknowledgement, and the ledger ends complete. *)
Lemma session_out_of_order_then_resume :
  let w := run (Scenario.partial ++
                [(Scenario.resume, "sid-1"); (Scenario.chunk 3, "sid-1")])
             initial in
  transfer_states w !! KStr "transfer-123"
    = Some (mkState {[0; 1; 2; 3]} 3
              (mkMeta 4 (PInt 8) (PStr "blob.bin") (PInt 32))) ∧
  (λ c, (c_cmd c, c_seq c)) <$> sent w
    = [("ACK", Some (PInt 0)); ("CUM_ACK", Some (PInt 0));
       ("ACK", Some (PInt 2)); ("ACK", Some (PInt 1));
       ("MISSING", None);
       ("ACK", Some (PInt 3)); ("CUM_ACK", Some (PInt 3))] ∧
  transfer_states (run Scenario.partial initial)
    = transfer_states Scenario.three_of_four.
Proof.
  intros w. subst w.
  split; [| split]; vm_compute; reflexivity.
Qed.

(* ===================================================================== *)
(** * Comparing without regard to case; the handler on any payload        *)
(* ===================================================================== *)

Lemma lower_ascii_code c :
  lower_ascii c =
    ascii_of_nat
      (if (65 <=? nat_of_ascii c)%nat && (nat_of_ascii c <=? 90)%nat
       then nat_of_ascii c + 32 else nat_of_ascii c)%nat.
Proof.
  unfold lower_ascii.
  destruct ((65 <=? nat_of_ascii c)%nat && (nat_of_ascii c <=? 90)%nat);
    [done | by rewrite ascii_nat_embedding].
Qed.

Lemma ascii_of_nat_inj (i j : nat) :
  (i < 256)%nat → (j < 256)%nat → ascii_of_nat i = ascii_of_nat j ↔ i = j.
Proof.
  intros Hi Hj. split; [| by intros ->].
  intros Heq. apply (f_equal nat_of_ascii) in Heq.
  by rewrite !nat_ascii_embedding in Heq.
Qed.

Lemma same_letter_lower a b :
  same_letter a b = true ↔ lower_ascii a = lower_ascii b.
Proof.
  rewrite !lower_ascii_code. unfold same_letter.
  pose proof (nat_ascii_bounded a) as Ha.
  pose proof (nat_ascii_bounded b) as Hb.
  set (m := nat_of_ascii a) in *. set (n := nat_of_ascii b) in *.
  destruct (65 <=? m)%nat eqn:Hm1, (m <=? 90)%nat eqn:Hm2,
    (65 <=? n)%nat eqn:Hn1, (n <=? 90)%nat eqn:Hn2; simpl;
    rewrite ?Nat.leb_le, ?Nat.leb_gt in *;
    rewrite ?orb_false_r, ?orb_true_iff, ?Nat.eqb_eq, ascii_of_nat_inj by lia;
    lia.
Qed.

Lemma case_insensitive_eq_lower s t :
  case_insensitive_eq s t = true ↔ lower s = lower t.
Proof.
  revert t.
  induction s as [| a s IH]; intros [| b t];
    cbn [case_insensitive_eq]; try done.
  change (lower (String a s)) with (String (lower_ascii a) (lower s)).
  change (lower (String b t)) with (String (lower_ascii b) (lower t)).
  rewrite andb_true_iff, same_letter_lower, IH.
  split; [by intros [-> ->] | intros H; by injection H].
Qed.

Lemma integrity_mismatch_case_insensitive calculated checksum :
  integrity_mismatch calculated checksum = false ↔
  case_insensitive_eq calculated checksum = true.
Proof.
  unfold integrity_mismatch.
  by rewrite negb_false_iff, String.eqb_eq, case_insensitive_eq_lower.
Qed.

Lemma msg_accepted data sid w seq payload checksum :
  checked_message data seq payload checksum →
  integrity_mismatch (calculated_hex (encode_utf8 payload) seq) checksum
    = false →
  handle_reliable_event data sid w =
    (Return (mkResult (PStr "MSG") sid (get data "transfer_id")
               (Some (PStr "ACK")) (Some seq) None),
     mkWorld (transfer_states w)
       (sent w ++
        [mkControl "ACK" (Some (PInt seq)) None
           (Some [("integrity_status", PStr "valid");
                  ("expected",
                   PStr (calculated_hex (encode_utf8 payload) seq));
                  ("received", PStr checksum);
                  ("type", PStr "MSG")])])).
Proof.
  intros [Htype Hseq Hpayload Hck Htagged] Hok.
  unfold checksum_of in Hck. unfold integrity_mismatch in Hok.
  unfold handle_reliable_event.
  rewrite Htype, Hseq, Hpayload, Hck. run_engine.
  assert (truthy (PStr checksum) = true) as ->.
  { unfold truthy. by apply negb_true_iff, String.eqb_neq. }
  unfold payload_bytes_of, py_lower. simpl. by rewrite Hok.
Qed.


(* ===================================================================== *)
(** * Properties of the protocol                                         *)
(* ===================================================================== *)

(** C1.  In every registry reachable from the empty one by engine calls,
    each transfer's [highest_contig] is the largest [n] such that all of
    [0..n] are in [received], or [-1] when [0] is not.  In particular,
    once accepted chunks carrying exactly the sequence numbers
    [0..N-1], in any order and with any repetitions, have been fed to a
    transfer that had no entry, its [received] is [{0..N-1}] and its
    [highest_contig] is [N-1]. *)
Theorem highest_contig_is_longest_prefix (frames : list (frame * string)) :
  let w := run frames initial in
  (∀ key st,
     transfer_states w !! key = Some st →
     is_highest_contig (received st) (highest_contig st)) ∧
  (∀ (N : Z) (order : list Z) (chunks : list (frame * string))
     (transfer_id : pyval) (key : pykey),
     0 < N →
     (∀ i, i ∈ order ↔ 0 ≤ i < N) →
     Forall2 (λ ev seq, accepted_chunk ev.1 transfer_id seq) chunks order →
     py_key transfer_id = Return key →
     transfer_states w !! key = None →
     ∃ st,
       transfer_states (run chunks w) !! key = Some st ∧
       (∀ i, i ∈ received st ↔ 0 ≤ i < N) ∧
       highest_contig st = N - 1).
Proof.
  intros w.
  assert (registry_inv (transfer_states w)) as Hinv.
  { apply run_registry_inv. intros key st Hlook.
    simpl in Hlook. by rewrite lookup_empty in Hlook. }
  split.
  - intros key st Hlook. by eapply contig_inv_highest, Hinv.
  - intros N order chunks transfer_id key HN Hcover Hall Hkey Hfresh.
    destruct (run_accepted_received _ _ _ _ w Hall Hkey) as [Hrecv Hsome].
    destruct Hsome as [st Hst].
    { intros ->. apply (not_elem_of_nil 0), Hcover. lia. }
    exists st. split; [done |].
    unfold received_at in Hrecv. rewrite Hst, Hfresh in Hrecv.
    assert (∀ i, i ∈ received st ↔ 0 ≤ i < N) as Hmem.
    { intros i. rewrite Hrecv, <- Hcover. set_solver. }
    split; [done |].
    destruct (run_registry_inv chunks w Hinv key st Hst)
      as (Hlo & Hpre & Hstop).
    assert (highest_contig st < N) as Hlt.
    { destruct (decide (highest_contig st < 0)); [lia |].
      apply Hmem, Hpre. lia. }
    assert (¬ highest_contig st + 1 < N) as Hge.
    { intros Hsmall. apply Hstop, Hmem. lia. }
    lia.
Qed.

Lemma highest_contig_is_longest_prefix_witness :
  (∃ st,
     transfer_states (run Scenario.partial initial) !! KStr "transfer-123"
       = Some st ∧
     is_highest_contig (received st) (highest_contig st)) ∧
  (∃ st,
     transfer_states (run Scenario.complete (run [] initial))
       !! KStr "transfer-123" = Some st ∧
     (∀ i, i ∈ received st ↔ 0 ≤ i < 4) ∧
     highest_contig st = 4 - 1).
Proof.
  split.
  - eexists. split; [vm_compute; reflexivity |].
    apply (proj1 (highest_contig_is_longest_prefix Scenario.partial))
      with (KStr "transfer-123").
    vm_compute. reflexivity.
  - apply (proj2 (highest_contig_is_longest_prefix [])
             4 [0; 2; 1; 3] Scenario.complete Scenario.transfer).
    + lia.
    + intros i. rewrite !elem_of_cons, elem_of_nil. lia.
    + constructor; [conforming_chunk 0 |].
      constructor; [conforming_chunk 2 |].
      constructor; [conforming_chunk 1 |].
      constructor; [conforming_chunk 3 |].
      constructor.
    + reflexivity.
    + reflexivity.
Defined.

(** C2.  The integrity value computed for payload [raw] and sequence
    number [seq] does not verify against the same payload at any other
    sequence number [seq']: the comparison reports a mismatch, and a
    FILE_CHUNK or MSG frame presenting it at [seq'] is answered with
    INTEGRITY_FAIL.  The comparison is case-insensitive: it accepts
    exactly the strings whose lowercase form is the value, which are
    exactly the strings equal to the value up to the case of their
    letters, so that a FILE_CHUNK or MSG frame presenting the value at
    [seq] in capitals, or in any mixture of cases, is answered with
    ACK.  For a 32-bit sequence number the value is eight lowercase
    hexadecimal digits. *)
Theorem integrity_value_binds_sequence (raw : list byte) (seq seq' : Z) :
  seq' ≠ seq →
  integrity_mismatch (calculated_hex raw seq') (calculated_hex raw seq) = true ∧
  (∀ data sid w transfer_id total_chunks,
     decodable_chunk data transfer_id seq' total_chunks raw →
     checksum_of data = PStr (calculated_hex raw seq) →
     ∃ r, (handle_reliable_event data sid w).1 = Return r ∧
          r_cmd r = Some (PStr "INTEGRITY_FAIL")) ∧
  (∀ data sid w payload,
     encode_utf8 payload = raw →
     checked_message data seq' payload (calculated_hex raw seq) →
     ∃ r, (handle_reliable_event data sid w).1 = Return r ∧
          r_cmd r = Some (PStr "INTEGRITY_FAIL")) ∧
  (∀ tag,
     integrity_mismatch (calculated_hex raw seq) tag = false ↔
     lower tag = calculated_hex raw seq) ∧
  (0 ≤ seq < 2 ^ 32 →
   String.length (calculated_hex raw seq) = 8%nat ∧
   all_lower_hex (calculated_hex raw seq) = true) ∧
  (∀ tag,
     integrity_mismatch (calculated_hex raw seq) tag = false ↔
     case_insensitive_eq (calculated_hex raw seq) tag = true) ∧
  (∀ data sid w transfer_id total_chunks key tag,
     decodable_chunk data transfer_id seq total_chunks raw →
     py_key transfer_id = Return key →
     checksum_of data = PStr tag →
     case_insensitive_eq (calculated_hex raw seq) tag = true →
     ∃ r, (handle_reliable_event data sid w).1 = Return r ∧
          r_cmd r = Some (PStr "ACK")) ∧
  (∀ data sid w payload tag,
     encode_utf8 payload = raw →
     checked_message data seq payload tag →
     case_insensitive_eq (calculated_hex raw seq) tag = true →
     ∃ r, (handle_reliable_event data sid w).1 = Return r ∧
          r_cmd r = Some (PStr "ACK")).
Proof.
  intros Hne.
  assert (integrity_mismatch (calculated_hex raw seq') (calculated_hex raw seq)
          = true) as Hbad.
  { unfold integrity_mismatch, calculated_hex.
    rewrite !lower_format_08x. apply negb_true_iff, String.eqb_neq.
    intros Heq%format_08x_inj. apply Hne.
    by apply lxor_cancel_l in Heq. }
  split; [done |]. split; [| split; [| split; [| split; [| split; [| split]]]]].
  - intros data sid w transfer_id total Hdc Hck.
    rewrite (chunk_integrity_fail _ sid w _ _ _ _ _ Hdc Hck Hbad).
    by eexists.
  - intros data sid w payload <- Hmsg.
    rewrite (msg_integrity_fail _ sid w _ _ _ Hmsg Hbad).
    by eexists.
  - intros tag. unfold integrity_mismatch, calculated_hex.
    rewrite lower_format_08x, negb_false_iff, String.eqb_eq. split; congruence.
  - intros Hrange. unfold calculated_hex. split.
    + apply length_format_08x, calculated_hex_range, Hrange.
    + rewrite format_08x_signed. apply Z.leb_le.
      apply calculated_hex_range, Hrange.
  - intros tag. apply integrity_mismatch_case_insensitive.
  - intros data sid w transfer_id total key tag Hdc Hkey Hck Hsame.
    apply integrity_mismatch_case_insensitive in Hsame.
    rewrite (chunk_accepted _ sid w _ _ _ _ _ _ Hdc Hck Hsame Hkey).
    by eexists.
  - intros data sid w payload tag <- Hmsg Hsame.
    apply integrity_mismatch_case_insensitive in Hsame.
    rewrite (msg_accepted _ sid w _ _ _ Hmsg Hsame).
    by eexists.
Qed.

Lemma integrity_value_binds_sequence_witness :
  integrity_mismatch (calculated_hex (encode_utf8 "hello") 8)
    (calculated_hex (encode_utf8 "hello") 7) = true ∧
  calculated_hex (encode_utf8 "hello") 7 = "3610a681" ∧
  integrity_mismatch (calculated_hex (encode_utf8 "hello") 7) "3610A681"
    = false ∧
  ∃ r, (handle_reliable_event Scenario.shouted "sid-1" initial).1 = Return r ∧
       r_cmd r = Some (PStr "ACK").
Proof.
  destruct (integrity_value_binds_sequence (encode_utf8 "hello") 7 8)
    as (Hbad & _ & _ & _ & _ & Hcase & _ & Hmsg); [lia |].
  split; [exact Hbad |]. split; [vm_compute; reflexivity |]. split.
  - apply Hcase. vm_compute. reflexivity.
  - apply (Hmsg Scenario.shouted "sid-1" initial "hello" "3610A681").
    + reflexivity.
    + constructor; try (vm_compute; reflexivity). discriminate.
    + vm_compute. reflexivity.
Defined.

(** C3.  A RESUME_REQUEST control frame naming a transfer is answered
    with exactly one control, and [transfer_states] is not touched.  If
    the transfer is unknown the answer is CUM_ACK with sequence [-1].
    If it is known and some [i] of [0..total_chunks-1] is not in
    [received], the answer is MISSING with the ascending list of exactly
    those [i] (so [[k]] when [k] alone is missing).  If it is known and
    nothing is missing, the answer is CUM_ACK with [highest_contig]. *)
Theorem resume_request_reports_missing
    (data : frame) (sid : string) (w : world)
    (transfer_id : pyval) (key : pykey) :
  resume_request data transfer_id key →
  ∃ reply,
    (handle_reliable_event data sid w).2
      = mkWorld (transfer_states w) (sent w ++ [reply]) ∧
    match transfer_states w !! key with
    | None => reply = cum_ack_of transfer_id (-1)
    | Some st =>
        let total := meta_total_chunks (meta st) in
        ((∃ i, 0 ≤ i < total ∧ i ∉ received st) →
         ∃ missing,
           reply = missing_ctl transfer_id missing ∧
           StronglySorted Z.lt missing ∧
           (∀ i, i ∈ missing ↔ 0 ≤ i < total ∧ i ∉ received st) ∧
           (∀ k, (∀ i, 0 ≤ i < total ∧ i ∉ received st ↔ i = k) →
                 missing = [k])) ∧
        ((∀ i, 0 ≤ i < total → i ∈ received st) →
         reply = cum_ack_of transfer_id (highest_contig st))
    end.
Proof.
  intros Hreq. exists (resume_reply transfer_id (transfer_states w !! key)).
  rewrite (resume_answered _ sid w _ _ Hreq). split; [done |].
  destruct (transfer_states w !! key) as [st |]; [| done].
  simpl. set (total := meta_total_chunks (meta st)).
  pose proof (elem_of_missing_of total (received st)) as Hmem.
  pose proof (missing_of_sorted total (received st)) as Hsorted.
  destruct (missing_of total (received st)) as [| m missing] eqn:Hmiss.
  - split; [| done].
    intros (i & Hi & Hout). exfalso.
    eapply not_elem_of_nil, Hmem. eauto.
  - split.
    + intros _. exists (m :: missing). split; [done |].
      split; [done |]. split; [done |].
      intros k Hk. apply sorted_singleton; [done |].
      intros i. by rewrite Hmem.
    + intros Hall. exfalso.
      destruct (Hmem m) as [(Hm & Hout) _]; [left |].
      by apply Hout, Hall.
Qed.

Lemma resume_request_reports_missing_witness :
  ∃ reply,
    (handle_reliable_event Scenario.resume "sid-1" Scenario.three_of_four).2
      = mkWorld (transfer_states Scenario.three_of_four) [reply] ∧
    reply = missing_ctl Scenario.transfer [3].
Proof.
  destruct (resume_request_reports_missing Scenario.resume "sid-1"
              Scenario.three_of_four Scenario.transfer (KStr "transfer-123"))
    as (reply & Hw & Hreply).
  { constructor; vm_compute; reflexivity. }
  exists reply. split; [exact Hw |].
  change (transfer_states Scenario.three_of_four !! KStr "transfer-123")
    with (Some Scenario.three_of_four_state) in Hreply.
  cbv beta iota zeta in Hreply.
  change (meta_total_chunks (meta Scenario.three_of_four_state))
    with 4 in Hreply.
  change (received Scenario.three_of_four_state)
    with ({[0; 1; 2]} : gset Z) in Hreply.
  destruct Hreply as [Hmissing _].
  destruct Hmissing as (missing & -> & _ & _ & Honly).
  { exists 3. split; [lia | set_solver]. }
  f_equal. apply Honly. intros i.
  split.
  - intros [Hi Hout].
    destruct (decide (i = 3)) as [| Hne]; [done |]. exfalso.
    apply Hout. assert (i = 0 ∨ i = 1 ∨ i = 2) as [-> | [-> | ->]] by lia;
      set_solver.
  - intros ->. split; [lia | set_solver].
Defined.

(** C4.  A FILE_CHUNK frame that names a transfer and whose payload
    decodes, but whose checksum differs, compared case-insensitively,
    from the value recomputed from the decoded payload and the sequence
    number, is answered with one INTEGRITY_FAIL control with reason
    ["integrity_compromised"] carrying the expected and the received
    value.  [transfer_states] is left as it was: the sequence number is
    not recorded and no entry is created. *)
Theorem corrupted_chunk_is_rejected
    (data : frame) (sid : string) (w : world) (transfer_id : pyval)
    (seq total_chunks : Z) (raw : list byte) (checksum : string) :
  decodable_chunk data transfer_id seq total_chunks raw →
  checksum_of data = PStr checksum →
  lower (calculated_hex raw seq) ≠ lower checksum →
  handle_reliable_event data sid w =
    (Return (mkResult (PStr "FILE_CHUNK") sid transfer_id
               (Some (PStr "INTEGRITY_FAIL")) (Some seq)
               (Some "integrity_mismatch")),
     mkWorld (transfer_states w)
       (sent w ++
        [mkControl "INTEGRITY_FAIL" (Some (PInt seq)) (Some transfer_id)
           (Some [("reason", PStr "integrity_compromised");
                  ("expected", PStr (calculated_hex raw seq));
                  ("received", PStr checksum);
                  ("seq", PInt seq)])])) ∧
  transfer_states (handle_reliable_event data sid w).2 = transfer_states w ∧
  (∀ key, transfer_states w !! key = None →
          transfer_states (handle_reliable_event data sid w).2 !! key = None).
Proof.
  intros Hdc Hck Hne.
  assert (integrity_mismatch (calculated_hex raw seq) checksum = true) as Hbad.
  { unfold integrity_mismatch. by apply negb_true_iff, String.eqb_neq. }
  rewrite (chunk_integrity_fail _ sid w _ _ _ _ _ Hdc Hck Hbad).
  split; [done |]. split; [done |]. by intros key Hnone.
Qed.

Lemma corrupted_chunk_is_rejected_witness :
  transfer_states
    (handle_reliable_event (Scenario.chunk_with 0 (PStr "deadbeef")) "sid-1"
       initial).2 = ∅.
Proof.
  apply (corrupted_chunk_is_rejected
           (Scenario.chunk_with 0 (PStr "deadbeef")) "sid-1" initial
           Scenario.transfer 0 4 (Scenario.chunk_raw 0) "deadbeef").
  - constructor; vm_compute; reflexivity.
  - vm_compute; reflexivity.
  - vm_compute. discriminate.
Defined.

(** C5.  A FILE_CHUNK frame that passes the integrity check is answered
    with an ACK and, in addition, with a CUM_ACK carrying the
    transfer's [highest_contig] exactly when the [total_chunks] recorded
    for the transfer is nonzero and either the chunk's sequence number
    is a multiple of 4 or [highest_contig] equals [total_chunks - 1];
    in every other case the ACK is all that is sent.  The recorded
    [total_chunks] is the one of the chunk that created the entry. *)
Theorem cumulative_ack_policy
    (data : frame) (sid : string) (w : world) (transfer_id : pyval)
    (seq total_chunks : Z) (raw : list byte) (checksum : string)
    (key : pykey) :
  decodable_chunk data transfer_id seq total_chunks raw →
  checksum_of data = PStr checksum →
  integrity_mismatch (calculated_hex raw seq) checksum = false →
  py_key transfer_id = Return key →
  ∃ st,
    transfer_states (handle_reliable_event data sid w).2 !! key = Some st ∧
    meta st = meta (state_before data total_chunks (transfer_states w) key) ∧
    let total := meta_total_chunks (meta st) in
    let ack := ack_of transfer_id seq (calculated_hex raw seq) checksum in
    let due := total ≠ 0 ∧ (seq mod 4 = 0 ∨ highest_contig st = total - 1) in
    (due →
     sent (handle_reliable_event data sid w).2
       = (sent w ++ [ack; cum_ack_of transfer_id (highest_contig st)])%list) ∧
    (¬ due →
     sent (handle_reliable_event data sid w).2 = (sent w ++ [ack])%list).
Proof.
  intros Hdc Hck Hok Hkey.
  rewrite (chunk_accepted _ sid w _ _ _ _ _ _ Hdc Hck Hok Hkey).
  set (st := state_after _ seq). exists st. simpl.
  split; [apply lookup_insert_eq |].
  split; [apply state_after_meta |].
  unfold cum_ack_due.
  destruct (Z.eqb_spec (meta_total_chunks (meta st)) 0) as [Hz | Hnz];
    [| destruct (Z.eqb_spec (seq mod 4) 0) as [Hm | Hm];
       [| destruct (Z.eqb_spec (highest_contig st)
                      (meta_total_chunks (meta st) - 1)) as [Hc | Hc]]];
    simpl; split; intros Hdue; try done; tauto.
Qed.

Lemma cumulative_ack_policy_witness :
  sent (handle_reliable_event (Scenario.chunk 3) "sid-1"
          Scenario.three_of_four).2
    = [ack_of Scenario.transfer 3 "b9a6d9a4" "b9a6d9a4";
       cum_ack_of Scenario.transfer 3].
Proof.
  destruct (cumulative_ack_policy (Scenario.chunk 3) "sid-1"
              Scenario.three_of_four Scenario.transfer 3 4
              (Scenario.chunk_raw 3) "b9a6d9a4" (KStr "transfer-123"))
    as (st & Hst & _ & Hdue & _).
  - constructor; vm_compute; reflexivity.
  - vm_compute; reflexivity.
  - vm_compute; reflexivity.
  - reflexivity.
  - vm_compute in Hst. injection Hst as <-.
    apply Hdue. vm_compute. split; [discriminate | right; reflexivity].
Defined.

(** C6.  Receiving a second accepted FILE_CHUNK for the same transfer
    and sequence number changes nothing in [transfer_states]: the
    [received] set, [highest_contig] and [meta] of every transfer are as
    the first call left them.  Both calls send an ACK for the sequence
    number. *)
Theorem chunk_receipt_is_idempotent
    (data data' : frame) (sid sid' : string) (w : world)
    (transfer_id : pyval) (key : pykey) (seq : Z) :
  accepted_chunk data transfer_id seq →
  accepted_chunk data' transfer_id seq →
  py_key transfer_id = Return key →
  let w1 := (handle_reliable_event data sid w).2 in
  let w2 := (handle_reliable_event data' sid' w1).2 in
  transfer_states w2 = transfer_states w1 ∧
  (∃ st, transfer_states w1 !! key = Some st ∧ seq ∈ received st) ∧
  (∃ tag checksum more,
     sent w1 = (sent w ++ ack_of transfer_id seq tag checksum :: more)%list) ∧
  (∃ tag checksum more,
     sent w2 = (sent w1 ++ ack_of transfer_id seq tag checksum :: more)%list).
Proof.
  intros (total & raw & checksum & Hdc & Hck & Hok)
         (total' & raw' & checksum' & Hdc' & Hck' & Hok') Hkey w1 w2.
  subst w2 w1.
  rewrite (chunk_accepted _ sid w _ _ _ _ _ _ Hdc Hck Hok Hkey).
  set (st := state_after _ seq). simpl.
  rewrite (chunk_accepted _ sid' _ _ _ _ _ _ _ Hdc' Hck' Hok' Hkey). simpl.
  unfold state_before. rewrite lookup_insert_eq. simpl.
  replace (state_after st seq) with st by (symmetry; apply state_after_idem).
  split; [apply insert_insert_eq |].
  split; [exists st; split; [done | apply state_after_member] |].
  split; eauto.
Qed.

Lemma chunk_receipt_is_idempotent_witness :
  transfer_states
    (handle_reliable_event (Scenario.chunk 0) "sid-2"
       (handle_reliable_event (Scenario.chunk 0) "sid-1" initial).2).2
  = transfer_states
      (handle_reliable_event (Scenario.chunk 0) "sid-1" initial).2.
Proof.
  apply (chunk_receipt_is_idempotent (Scenario.chunk 0) (Scenario.chunk 0)
           "sid-1" "sid-2" initial Scenario.transfer (KStr "transfer-123") 0).
  - conforming_chunk 0.
  - conforming_chunk 0.
  - reflexivity.
Defined.

(** C7 (as the code has it).  A FILE_CHUNK frame that names a transfer
    but whose payload does not decode is answered with one NACK control
    carrying the sequence number and the transfer id, with reason
    ["invalid_base64"]; processing stops there and [transfer_states] is
    left as it was. *)
Theorem undecodable_chunk_is_nacked
    (data : frame) (sid : string) (w : world) (transfer_id : pyval)
    (seq : Z) :
  undecodable_chunk data transfer_id seq →
  handle_reliable_event data sid w =
    (Return (mkResult (PStr "FILE_CHUNK") sid transfer_id
               (Some (PStr "NACK")) (Some seq) (Some "invalid_base64")),
     mkWorld (transfer_states w)
       (sent w ++
        [mkControl "NACK" (Some (PInt seq)) (Some transfer_id)
           (Some [("reason", PStr "invalid_base64")])])).
Proof. apply chunk_undecodable. Qed.

Lemma undecodable_chunk_is_nacked_witness :
  handle_reliable_event Scenario.undecodable "sid-1" initial =
    (Return (mkResult (PStr "FILE_CHUNK") "sid-1" Scenario.transfer
               (Some (PStr "NACK")) (Some 0) (Some "invalid_base64")),
     mkWorld ∅
       [mkControl "NACK" (Some (PInt 0)) (Some Scenario.transfer)
          (Some [("reason", PStr "invalid_base64")])]).
Proof.
  apply (undecodable_chunk_is_nacked Scenario.undecodable "sid-1" initial
           Scenario.transfer 0).
  constructor; try (vm_compute; reflexivity).
  - exists 4. vm_compute; reflexivity.
  - eexists. vm_compute; reflexivity.
Defined.

(** C7 with the reason ["invalid_encoding"] does not hold: the chunk
    whose payload is the single character ["A"] does not decode, and no
    control sent in answer carries that reason. *)
Lemma invalid_encoding_counterexample :
  undecodable_chunk Scenario.undecodable Scenario.transfer 0 ∧
  ¬ ∃ c,
      c ∈ sent (handle_reliable_event Scenario.undecodable "sid-1" initial).2 ∧
      reason_of c = Some (PStr "invalid_encoding").
Proof.
  split.
  - constructor; try (vm_compute; reflexivity).
    + exists 4. vm_compute; reflexivity.
    + eexists. vm_compute; reflexivity.
  - intros (c & Hin & Hreason).
    vm_compute in Hin.
    apply list_elem_of_singleton in Hin as ->. discriminate Hreason.
Qed.




(** C9.  A MSG frame never changes [transfer_states], whether the call
    returns or raises and whether it goes through the Socket.IO handler
    or not.  A MSG frame without checksum is answered with exactly one
    ACK carrying the frame's sequence number. *)
Theorem message_leaves_registry_alone
    (data : frame) (sid : string) (w : world) :
  get data "type" = PStr "MSG" →
  transfer_states (handle_reliable_event data sid w).2 = transfer_states w ∧
  transfer_states (on_reliable_event data sid w).2 = transfer_states w ∧
  (∀ seq,
     truthy (get data "checksum") = false →
     py_int (get_or data "seq" (PInt 0)) = Return seq →
     handle_reliable_event data sid w =
       (Return (mkResult (PStr "MSG") sid (get data "transfer_id")
                  (Some (PStr "ACK")) (Some seq) None),
        mkWorld (transfer_states w)
          (sent w ++ [mkControl "ACK" (Some (PInt seq)) None None]))).
Proof.
  intros Htype.
  pose proof (msg_registry data sid w Htype) as Hreg.
  split; [done |]. split.
  - destruct (handle_reliable_event data sid w) as [[r | exc] w1] eqn:Hrun.
    + by rewrite (on_reliable_event_returns _ _ _ _ _ Hrun).
    + by rewrite (on_reliable_event_raises _ _ _ _ _ Hrun).
  - intros seq Hck Hseq. by apply msg_untagged.
Qed.

Lemma message_leaves_registry_alone_witness :
  handle_reliable_event Scenario.message "sid-1" initial =
    (Return (mkResult (PStr "MSG") "sid-1" PNone
               (Some (PStr "ACK")) (Some 7) None),
     mkWorld ∅ [mkControl "ACK" (Some (PInt 7)) None None]).
Proof.
  apply (proj2 (proj2 (message_leaves_registry_alone Scenario.message "sid-1"
                         initial eq_refl)) 7);
    vm_compute; reflexivity.
Defined.

(** C10.  A FILE_CHUNK frame that names a transfer and whose payload
    decodes, but whose checksum field is absent or the empty string, is
    always answered with INTEGRITY_FAIL and nothing else; no ACK is
    sent and [transfer_states] is left as it was.  The recomputed value
    is never the empty string: it has at least eight characters, and
    exactly eight lowercase hexadecimal digits when the sequence number
    has 32 bits. *)
Theorem chunk_without_checksum_is_rejected
    (data : frame) (sid : string) (w : world) (transfer_id : pyval)
    (seq total_chunks : Z) (raw : list byte) :
  decodable_chunk data transfer_id seq total_chunks raw →
  data !! "checksum" = None ∨ data !! "checksum" = Some (PStr "") →
  handle_reliable_event data sid w =
    (Return (mkResult (PStr "FILE_CHUNK") sid transfer_id
               (Some (PStr "INTEGRITY_FAIL")) (Some seq)
               (Some "integrity_mismatch")),
     mkWorld (transfer_states w)
       (sent w ++
        [mkControl "INTEGRITY_FAIL" (Some (PInt seq)) (Some transfer_id)
           (Some [("reason", PStr "integrity_compromised");
                  ("expected", PStr (calculated_hex raw seq));
                  ("received", PStr "");
                  ("seq", PInt seq)])])) ∧
  calculated_hex raw seq ≠ "" ∧
  (8 ≤ String.length (calculated_hex raw seq))%nat ∧
  (0 ≤ seq < 2 ^ 32 →
   String.length (calculated_hex raw seq) = 8%nat ∧
   all_lower_hex (calculated_hex raw seq) = true).
Proof.
  intros Hdc Hck.
  assert (checksum_of data = PStr "") as Hempty.
  { unfold checksum_of, get. by destruct Hck as [-> | ->]. }
  pose proof (length_format_08x_ge
                (Z.lxor (Z.land (crc32 raw) 0xFFFFFFFF) seq)) as Hlen.
  fold (calculated_hex raw seq) in Hlen.
  assert (calculated_hex raw seq ≠ "") as Hne.
  { intros Heq. rewrite Heq in Hlen. simpl in Hlen. lia. }
  split; [| split; [done | split; [done |]]].
  - eapply chunk_integrity_fail; [done | done |].
    unfold integrity_mismatch, calculated_hex in *.
    rewrite lower_format_08x. by apply negb_true_iff, String.eqb_neq.
  - intros Hrange. unfold calculated_hex. split.
    + apply length_format_08x, calculated_hex_range, Hrange.
    + rewrite format_08x_signed. apply Z.leb_le.
      apply calculated_hex_range, Hrange.
Qed.

Lemma chunk_without_checksum_is_rejected_witness :
  handle_reliable_event (Scenario.chunk_with 0 (PStr "")) "sid-1" initial =
    (Return (mkResult (PStr "FILE_CHUNK") "sid-1" Scenario.transfer
               (Some (PStr "INTEGRITY_FAIL")) (Some 0)
               (Some "integrity_mismatch")),
     mkWorld ∅
       [mkControl "INTEGRITY_FAIL" (Some (PInt 0)) (Some Scenario.transfer)
          (Some [("reason", PStr "integrity_compromised");
                 ("expected", PStr "6522df69");
                 ("received", PStr "");
                 ("seq", PInt 0)])]).
Proof.
  apply (chunk_without_checksum_is_rejected
           (Scenario.chunk_with 0 (PStr "")) "sid-1" initial
           Scenario.transfer 0 4 (Scenario.chunk_raw 0)).
  - constructor; vm_compute; reflexivity.
  - right. vm_compute. reflexivity.
Defined.

(* ===================================================================== *)
(** * Further properties of the reliability engine                       *)
(* ===================================================================== *)

#[local] Opaque record_seq.

(** Only the entry of the frame's own transfer can change. *)
Lemma handle_other_keys data sid w key :
  py_key (get data "transfer_id") ≠ Return key →
  transfer_states (handle_reliable_event data sid w).2 !! key
    = transfer_states w !! key.
Proof.
  intros Hother. unfold handle_reliable_event. run_engine.
  repeat (case_match; simpl in *; simplify_eq; try done).
  all: simpl; rewrite ?lookup_insert_ne by congruence; done.
Qed.

Lemma on_reliable_event_states data sid w :
  transfer_states (on_reliable_event data sid w).2
    = transfer_states (handle_reliable_event data sid w).2.
Proof.
  destruct (handle_reliable_event data sid w) as [[r | exc] w1] eqn:Hrun.
  - by rewrite (on_reliable_event_returns _ _ _ _ _ Hrun).
  - rewrite (on_reliable_event_raises _ _ _ _ _ Hrun). simpl.
    by rewrite (handle_raise _ _ _ _ _ Hrun).
Qed.

Lemma advance_ge fuel recv hc : hc ≤ advance fuel recv hc.
Proof.
  revert hc. induction fuel as [| fuel IH]; intros hc; simpl; [lia |].
  destruct (decide (hc + 1 ∈ recv)); [| lia].
  specialize (IH (hc + 1)). lia.
Qed.

Lemma handle_grows data sid w key st :
  transfer_states w !! key = Some st →
  ∃ st',
    transfer_states (handle_reliable_event data sid w).2 !! key = Some st' ∧
    received st ⊆ received st' ∧
    highest_contig st ≤ highest_contig st' ∧
    meta st' = meta st.
Proof.
  intros Hst.
  destruct (handle_states data sid w)
    as [Hsame | (key0 & seq & st0 & Hst0 & Hins)]; simpl in *.
  - exists st. by rewrite Hsame.
  - rewrite Hins. destruct (decide (key0 = key)) as [-> | Hne].
    + rewrite lookup_insert_eq.
      destruct Hst0 as [Hold | [Hnone _]]; [| congruence].
      assert (st0 = st) as -> by congruence.
      exists (record_seq st seq). split; [done |].
      rewrite record_seq_received, record_seq_meta.
      split; [set_solver |]. split; [| done].
      #[local] Transparent record_seq.
      unfold record_seq. simpl. apply advance_ge.
      #[local] Opaque record_seq.
    + rewrite lookup_insert_ne by done. by exists st.
Qed.

(** X1.  A FILE_CHUNK frame whose transfer id is absent, [null] or
    empty is answered with one NACK with reason ["missing_transfer_id"]
    carrying the frame's sequence number, whatever its payload and
    checksum are: the test comes before the payload is decoded.
    [transfer_states] is left as it was. *)
Theorem chunk_without_transfer_id_is_nacked
    (data : frame) (sid : string) (w : world) (seq total_chunks : Z) :
  get data "type" = PStr "FILE_CHUNK" →
  truthy (get data "transfer_id") = false →
  py_int (get_or data "seq" (PInt 0)) = Return seq →
  py_int (get_or data "total_chunks" (PInt 0)) = Return total_chunks →
  handle_reliable_event data sid w =
    (Return (mkResult (PStr "FILE_CHUNK") sid (get data "transfer_id")
               (Some (PStr "NACK")) (Some seq) (Some "missing_transfer_id")),
     mkWorld (transfer_states w)
       (sent w ++
        [mkControl "NACK" (Some (PInt seq)) (Some (get data "transfer_id"))
           (Some [("reason", PStr "missing_transfer_id")])])).
Proof.
  intros Htype Hid Hseq Htotal. unfold handle_reliable_event.
  rewrite Htype, Hseq, Htotal, Hid. by run_engine.
Qed.

Lemma chunk_without_transfer_id_is_nacked_witness :
  handle_reliable_event
    (<["transfer_id" := PStr ""]> (Scenario.chunk_with 5 (PStr "junk")))
    "sid-1" Scenario.three_of_four =
    (Return (mkResult (PStr "FILE_CHUNK") "sid-1" (PStr "")
               (Some (PStr "NACK")) (Some 5) (Some "missing_transfer_id")),
     mkWorld (transfer_states Scenario.three_of_four)
       [mkControl "NACK" (Some (PInt 5)) (Some (PStr ""))
          (Some [("reason", PStr "missing_transfer_id")])]).
Proof.
  refine (eq_trans
            (chunk_without_transfer_id_is_nacked
               (<["transfer_id" := PStr ""]>
                  (Scenario.chunk_with 5 (PStr "junk")))
               "sid-1" Scenario.three_of_four 5 4 _ _ _ _) _);
    vm_compute; reflexivity.
Defined.

(** X2.  One call changes at most the entry of the transfer its frame
    names: the entry under any other key of [transfer_states] is the
    same before and after, through [handle_reliable_event] and through
    [on_reliable_event] alike. *)
Theorem transfers_do_not_interfere
    (data : frame) (sid : string) (w : world) (key : pykey) :
  py_key (get data "transfer_id") ≠ Return key →
  transfer_states (handle_reliable_event data sid w).2 !! key
    = transfer_states w !! key ∧
  transfer_states (on_reliable_event data sid w).2 !! key
    = transfer_states w !! key.
Proof.
  intros Hother. rewrite on_reliable_event_states.
  split; by apply handle_other_keys.
Qed.

Lemma transfers_do_not_interfere_witness :
  transfer_states
    (handle_reliable_event
       (<["transfer_id" := PStr "other"]> (Scenario.chunk 3)) "sid-1"
       Scenario.three_of_four).2 !! KStr "transfer-123"
  = Some Scenario.three_of_four_state.
Proof.
  refine (eq_trans
            (proj1 (transfers_do_not_interfere
                      (<["transfer_id" := PStr "other"]> (Scenario.chunk 3))
                      "sid-1" Scenario.three_of_four (KStr "transfer-123") _))
            _).
  - vm_compute. discriminate.
  - vm_compute. reflexivity.
Defined.

(** X3.  Over any sequence of calls an entry of [transfer_states] is
    never removed, its [received] set never loses an element, its
    [highest_contig] never decreases and its [meta] stays what the first
    chunk of the transfer made it. *)
Theorem ledger_only_grows
    (frames : list (frame * string)) (w : world) (key : pykey)
    (st : TransferState) :
  transfer_states w !! key = Some st →
  ∃ st',
    transfer_states (run frames w) !! key = Some st' ∧
    received st ⊆ received st' ∧
    highest_contig st ≤ highest_contig st' ∧
    meta st' = meta st.
Proof.
  revert w st. induction frames as [| [data sid] frames IH]; intros w st Hst.
  - exists st. by simpl.
  - destruct (handle_grows data sid w key st Hst)
      as (st1 & Hst1 & Hrecv & Hhc & Hmeta).
    destruct (IH _ _ Hst1) as (st2 & Hst2 & Hrecv2 & Hhc2 & Hmeta2).
    exists st2. simpl. split; [done |].
    split; [set_solver |]. split; [lia | congruence].
Qed.

Lemma ledger_only_grows_witness :
  ∃ st',
    transfer_states
      (run [(<["total_chunks" := PInt 9]> (Scenario.chunk 3), "sid-2")]
         Scenario.three_of_four) !! KStr "transfer-123" = Some st' ∧
    received Scenario.three_of_four_state ⊆ received st' ∧
    highest_contig Scenario.three_of_four_state ≤ highest_contig st' ∧
    meta st' = meta Scenario.three_of_four_state.
Proof.
  apply (ledger_only_grows
           [(<["total_chunks" := PInt 9]> (Scenario.chunk 3), "sid-2")]
           Scenario.three_of_four (KStr "transfer-123")
           Scenario.three_of_four_state).
  vm_compute. reflexivity.
Defined.

Lemma length_lower s : String.length (lower s) = String.length s.
Proof.
  induction s as [| c r IH]; [done |].
  change (lower (String c r)) with (String (lower_ascii c) (lower r)).
  simpl. by rewrite IH.
Qed.

Lemma sorted_head (l : list Z) x :
  StronglySorted Z.lt l → x ∈ l → (∀ y, y ∈ l → x ≤ y) →
  ∃ rest, l = x :: rest.
Proof.
  intros Hsorted Hx Hmin. destruct l as [| a l]; [by apply elem_of_nil in Hx |].
  exists l. f_equal.
  apply elem_of_cons in Hx as [-> | Hx]; [done |].
  apply StronglySorted_inv in Hsorted as [_ Hlt].
  rewrite Forall_forall in Hlt. specialize (Hlt _ Hx).
  assert (x ≤ a) by (apply Hmin; left). lia.
Qed.



(** X5.  In a reachable registry the answer to a resume request agrees
    with the cumulative acknowledgement: when
    [highest_contig + 1 < total_chunks] the answer is MISSING and its
    list starts with [highest_contig + 1]; otherwise nothing of
    [0..total_chunks-1] is missing and the answer is CUM_ACK with
    [highest_contig]. *)
Theorem resume_starts_after_highest_contig
    (frames : list (frame * string)) (data : frame) (sid : string)
    (transfer_id : pyval) (key : pykey) (st : TransferState) :
  let w := run frames initial in
  let total := meta_total_chunks (meta st) in
  resume_request data transfer_id key →
  transfer_states w !! key = Some st →
  (highest_contig st + 1 < total →
   ∃ rest,
     (handle_reliable_event data sid w).2
       = mkWorld (transfer_states w)
           (sent w ++
            [missing_ctl transfer_id (highest_contig st + 1 :: rest)])) ∧
  (total ≤ highest_contig st + 1 →
   (handle_reliable_event data sid w).2
     = mkWorld (transfer_states w)
         (sent w ++ [cum_ack_of transfer_id (highest_contig st)])).
Proof.
  intros w total Hreq Hst.
  assert (contig_inv st) as (Hlo & Hpre & Hstop).
  { eapply (run_registry_inv frames initial); [| exact Hst].
    intros k s Hk. simpl in Hk. by rewrite lookup_empty in Hk. }
  rewrite (resume_answered _ sid w _ _ Hreq), Hst. simpl. fold total.
  pose proof (elem_of_missing_of total (received st)) as Hmem.
  pose proof (missing_of_sorted total (received st)) as Hsorted.
  split.
  - intros Hlt.
    destruct (sorted_head _ (highest_contig st + 1) Hsorted) as [rest Hrest].
    + apply Hmem. split; [lia | done].
    + intros y [Hy Hout]%Hmem.
      destruct (decide (highest_contig st + 1 ≤ y)); [done |].
      exfalso. apply Hout, Hpre. lia.
    + exists rest. by rewrite Hrest.
  - intros Hge.
    destruct (missing_of total (received st)) as [| m rest] eqn:Hmiss;
      [done |].
    exfalso. destruct (Hmem m) as [[Hm Hout] _]; [left |].
    apply Hout, Hpre. lia.
Qed.

Lemma resume_starts_after_highest_contig_witness :
  ∃ rest,
    (handle_reliable_event Scenario.resume "sid-1"
       (run Scenario.partial initial)).2
      = mkWorld (transfer_states (run Scenario.partial initial))
          (sent (run Scenario.partial initial) ++
           [missing_ctl Scenario.transfer (2 + 1 :: rest)]).
Proof.
  apply (proj1 (resume_starts_after_highest_contig Scenario.partial
                  Scenario.resume "sid-1" Scenario.transfer
                  (KStr "transfer-123") Scenario.three_of_four_state
                  ltac:(constructor; vm_compute; reflexivity)
                  ltac:(vm_compute; reflexivity))).
  vm_compute. reflexivity.
Defined.

(** X6.  A MSG frame whose checksum equals, letter case aside, the
    value recomputed from its payload and sequence number is answered
    with one ACK that reports the integrity status ["valid"] together
    with the expected and the received value; [transfer_states] is not
    touched. *)
Theorem tagged_message_is_acknowledged
    (data : frame) (sid : string) (w : world) (seq : Z)
    (payload checksum : string) :
  checked_message data seq payload checksum →
  lower checksum = calculated_hex (encode_utf8 payload) seq →
  handle_reliable_event data sid w =
    (Return (mkResult (PStr "MSG") sid (get data "transfer_id")
               (Some (PStr "ACK")) (Some seq) None),
     mkWorld (transfer_states w)
       (sent w ++
        [mkControl "ACK" (Some (PInt seq)) None
           (Some [("integrity_status", PStr "valid");
                  ("expected",
                   PStr (calculated_hex (encode_utf8 payload) seq));
                  ("received", PStr checksum);
                  ("type", PStr "MSG")])])).
Proof.
  intros [Htype Hseq Hpayload Hck Htagged] Hsame.
  unfold checksum_of in Hck. unfold handle_reliable_event.
  rewrite Htype, Hseq, Hpayload, Hck. run_engine.
  assert (truthy (PStr checksum) = true) as ->.
  { unfold truthy. by apply negb_true_iff, String.eqb_neq. }
  unfold payload_bytes_of, py_lower. simpl. rewrite Hsame.
  unfold calculated_hex. rewrite lower_format_08x, String.eqb_refl.
  reflexivity.
Qed.

Lemma tagged_message_is_acknowledged_witness :
  handle_reliable_event
    (<["checksum" := PStr "3610A681"]> Scenario.message) "sid-1" initial =
    (Return (mkResult (PStr "MSG") "sid-1" PNone
               (Some (PStr "ACK")) (Some 7) None),
     mkWorld ∅
       [mkControl "ACK" (Some (PInt 7)) None
          (Some [("integrity_status", PStr "valid");
                 ("expected", PStr "3610a681");
                 ("received", PStr "3610A681");
                 ("type", PStr "MSG")])]).
Proof.
  refine (eq_trans
            (tagged_message_is_acknowledged
               (<["checksum" := PStr "3610A681"]> Scenario.message) "sid-1"
               initial 7 "hello" "3610A681" _ _) _).
  - constructor; try (vm_compute; reflexivity). discriminate.
  - vm_compute. reflexivity.
  - vm_compute. reflexivity.
Defined.

(** X7.  A frame whose type is none of MSG, FILE_CHUNK and CONTROL, and
    a CONTROL frame that is not a RESUME_REQUEST naming a transfer, are
    accepted without any effect: nothing is sent, [transfer_states] is
    left as it was, and the result only echoes the command ([None] for
    an unknown type). *)
Theorem other_frames_have_no_effect
    (data : frame) (sid : string) (w : world) :
  (eq_str (get data "type") "MSG" = false →
   eq_str (get data "type") "FILE_CHUNK" = false →
   eq_str (get data "type") "CONTROL" = false →
   handle_reliable_event data sid w =
     (Return (mkResult (get data "type") sid (get data "transfer_id")
                (Some PNone) None None), w)) ∧
  (get data "type" = PStr "CONTROL" →
   eq_str (get data "cmd") "RESUME_REQUEST" = false ∨
   truthy (get data "transfer_id") = false →
   handle_reliable_event data sid w =
     (Return (mkResult (PStr "CONTROL") sid (get data "transfer_id")
                (Some (get data "cmd")) None None), w)).
Proof.
  split.
  - intros H1 H2 H3. unfold handle_reliable_event. by rewrite H1, H2, H3.
  - intros Htype Hnot. unfold handle_reliable_event. rewrite Htype.
    run_engine.
    assert (eq_str (get data "cmd") "RESUME_REQUEST"
            && truthy (get data "transfer_id") = false) as ->.
    { destruct Hnot as [-> | ->]; [done | apply andb_false_r]. }
    by destruct w.
Qed.

Lemma other_frames_have_no_effect_witness :
  handle_reliable_event
    (list_to_map [("type", PStr "PING")]) "sid-1" Scenario.three_of_four
    = (Return (mkResult (PStr "PING") "sid-1" PNone (Some PNone) None None),
       Scenario.three_of_four) ∧
  handle_reliable_event
    (list_to_map [("type", PStr "CONTROL"); ("cmd", PStr "RESUME_REQUEST")])
    "sid-1" Scenario.three_of_four
    = (Return (mkResult (PStr "CONTROL") "sid-1" PNone
                 (Some (PStr "RESUME_REQUEST")) None None),
       Scenario.three_of_four).
Proof.
  split.
  - refine (eq_trans
              (proj1 (other_frames_have_no_effect
                        (list_to_map [("type", PStr "PING")]) "sid-1"
                        Scenario.three_of_four) _ _ _) _);
      vm_compute; reflexivity.
  - refine (eq_trans
              (proj2 (other_frames_have_no_effect
                        (list_to_map [("type", PStr "CONTROL");
                                      ("cmd", PStr "RESUME_REQUEST")])
                        "sid-1" Scenario.three_of_four) _ _) _).
    + vm_compute. reflexivity.
    + right. vm_compute. reflexivity.
    + vm_compute. reflexivity.
Defined.

(** X8.  For a 32-bit sequence number the recomputed value has eight
    characters, so a FILE_CHUNK frame carrying a checksum of any other
    length, such as the 64 digits of a SHA-256 digest, is always
    answered with INTEGRITY_FAIL and never recorded. *)
Theorem checksum_of_other_length_is_rejected
    (data : frame) (sid : string) (w : world) (transfer_id : pyval)
    (seq total_chunks : Z) (raw : list byte) (checksum : string) :
  decodable_chunk data transfer_id seq total_chunks raw →
  checksum_of data = PStr checksum →
  0 ≤ seq < 2 ^ 32 →
  String.length checksum ≠ 8%nat →
  handle_reliable_event data sid w =
    (Return (mkResult (PStr "FILE_CHUNK") sid transfer_id
               (Some (PStr "INTEGRITY_FAIL")) (Some seq)
               (Some "integrity_mismatch")),
     mkWorld (transfer_states w)
       (sent w ++
        [mkControl "INTEGRITY_FAIL" (Some (PInt seq)) (Some transfer_id)
           (Some [("reason", PStr "integrity_compromised");
                  ("expected", PStr (calculated_hex raw seq));
                  ("received", PStr checksum);
                  ("seq", PInt seq)])])).
Proof.
  intros Hdc Hck Hrange Hlen.
  apply (chunk_integrity_fail _ _ _ _ _ _ _ _ Hdc Hck).
  unfold integrity_mismatch. apply negb_true_iff, String.eqb_neq.
  intros Heq. apply Hlen.
  rewrite <- (length_lower checksum), <- Heq, length_lower.
  unfold calculated_hex. apply length_format_08x, calculated_hex_range, Hrange.
Qed.

Lemma checksum_of_other_length_is_rejected_witness :
  transfer_states
    (handle_reliable_event
       (Scenario.chunk_with 0
          (PStr "af5570f5a1810b7af78caf4bc70a660f0df51e42baf91d4de5b2328de0e83dfc"))
       "sid-1" initial).2 = ∅.
Proof.
  refine (f_equal (λ x, transfer_states x.2)
            (checksum_of_other_length_is_rejected
               (Scenario.chunk_with 0
                  (PStr "af5570f5a1810b7af78caf4bc70a660f0df51e42baf91d4de5b2328de0e83dfc"))
               "sid-1" initial Scenario.transfer 0 4 (Scenario.chunk_raw 0)
               "af5570f5a1810b7af78caf4bc70a660f0df51e42baf91d4de5b2328de0e83dfc"
               _ _ _ _)).
  - constructor; vm_compute; reflexivity.
  - vm_compute. reflexivity.
  - lia.
  - vm_compute. discriminate.
Defined.

Lemma get_insert_ne (data : frame) k k' v :
  k ≠ k' → get (<[k := v]> data) k' = get data k'.
Proof. intros Hne. unfold get. by rewrite lookup_insert_ne. Qed.

Lemma get_or_insert_ne (data : frame) k k' v d :
  k ≠ k' → get_or (<[k := v]> data) k' d = get_or data k' d.
Proof. intros Hne. unfold get_or. by rewrite lookup_insert_ne. Qed.

(** X9.  [simulate_mitm_attack] adds 1000 to the sequence number of a
    frame and leaves everything else, the checksum included, alone.  A
    chunk that would have been accepted is, once altered, answered with
    INTEGRITY_FAIL for the shifted number and is not recorded.  A frame
    without a ['seq'] key is not altered at all.  (The handler's call of
    the simulation is commented out in the source; the statement is
    about the frame the simulation produces.) *)
Theorem mitm_shift_is_detected
    (data : frame) (sid : string) (w : world) (transfer_id : pyval)
    (seq : Z) :
  accepted_chunk data transfer_id seq →
  data !! "seq" = Some (PInt seq) →
  simulate_mitm_attack data = Return (<["seq" := PInt (seq + 1000)]> data) ∧
  (∃ expected received,
     handle_reliable_event (<["seq" := PInt (seq + 1000)]> data) sid w =
       (Return (mkResult (PStr "FILE_CHUNK") sid transfer_id
                  (Some (PStr "INTEGRITY_FAIL")) (Some (seq + 1000))
                  (Some "integrity_mismatch")),
        mkWorld (transfer_states w)
          (sent w ++
           [mkControl "INTEGRITY_FAIL" (Some (PInt (seq + 1000)))
              (Some transfer_id)
              (Some [("reason", PStr "integrity_compromised");
                     ("expected", PStr expected);
                     ("received", PStr received);
                     ("seq", PInt (seq + 1000))])]))) ∧
  (∀ other : frame,
     other !! "seq" = None → simulate_mitm_attack other = Return other).
Proof.
  intros (total & raw & checksum & Hdc & Hck & Hok) Hseq.
  split; [| split].
  - unfold simulate_mitm_attack. by rewrite Hseq.
  - exists (calculated_hex raw (seq + 1000)), checksum.
    destruct Hdc as [Htype Htid Hnamed _ Htotal Hraw].
    apply chunk_integrity_fail with (total_chunks := total).
    + constructor; rewrite ?get_insert_ne, ?get_or_insert_ne by done;
        try done.
      unfold get_or. by rewrite lookup_insert_eq.
    + unfold checksum_of in *. by rewrite get_insert_ne.
    + unfold integrity_mismatch in *.
      apply negb_false_iff, String.eqb_eq in Hok.
      apply negb_true_iff, String.eqb_neq. rewrite <- Hok.
      unfold calculated_hex. rewrite !lower_format_08x.
      intros Heq%format_08x_inj%lxor_cancel_l. lia.
  - intros other Hnone. unfold simulate_mitm_attack. by rewrite Hnone.
Qed.

Lemma mitm_shift_is_detected_witness :
  simulate_mitm_attack (Scenario.chunk 2)
    = Return (<["seq" := PInt (2 + 1000)]> (Scenario.chunk 2)).
Proof.
  apply (mitm_shift_is_detected (Scenario.chunk 2) "sid-1" initial
           Scenario.transfer 2).
  - conforming_chunk 2.
  - vm_compute. reflexivity.
Defined.

(** X24.  A payload that is not a dictionary defeats the catch-all of
    [on_reliable_event]: [data.get('type')] raises in the engine, the
    handler catches that, and [data.get('seq', -1)] in its own [except]
    block raises again with nothing around it.  The handler raises
    [AttributeError]; nothing has been sent and [transfer_states] is as
    it was. *)
Theorem non_dictionary_payload_escapes
    (v : pyval) (sid : string) (w : world) :
  handle_reliable_event_json (Other v) sid w =
    (Raise (AttributeError
              ("'" +:+ type_name v +:+ "' object has no attribute 'get'")),
     w) ∧
  on_reliable_event_json (Other v) sid w =
    (Raise (AttributeError
              ("'" +:+ type_name v +:+ "' object has no attribute 'get'")),
     w).
Proof. split; reflexivity. Qed.

(* ===================================================================== *)
(** * Rooms: dictionaries and invariants                                 *)
(* ===================================================================== *)

Ltac run_chat :=
  unfold mbind, Chat_bind, mret, Chat_ret, builtin, the_rooms, the_sid_map,
    set_room, del_room, set_sid, del_sid, emit, join_room, leave_room,
    perform;
  simpl.

Lemma dict_get_None {V} (d : pydict V) k : dict_get d k = None ↔ k ∉ d.*1.
Proof.
  induction d as [| [k' [obj v]] d IH]; simpl.
  - split; [intros _; apply not_elem_of_nil | done].
  - destruct (decide (k' = k)) as [-> | Hne].
    + split; [done |]. intros Hout. exfalso. apply Hout. left.
    + rewrite IH, not_elem_of_cons. naive_solver.
Qed.

Lemma dict_set_absent {V} (d : pydict V) k obj v :
  dict_get d k = None → dict_set d k obj v = (d ++ [(k, (obj, v))])%list.
Proof.
  induction d as [| [k' [obj' v']] d IH]; simpl; [done |].
  destruct (decide (k' = k)); [done |]. intros H. by rewrite IH.
Qed.

Lemma dict_get_app {V} (d d' : pydict V) k :
  dict_get (d ++ d')%list k =
    match dict_get d k with Some v => Some v | None => dict_get d' k end.
Proof.
  induction d as [| [k' [obj v]] d IH]; simpl; [done |].
  by destruct (decide (k' = k)).
Qed.

Lemma dict_get_del_ne {V} (d : pydict V) k k' :
  k ≠ k' → dict_get (dict_del d k) k' = dict_get d k'.
Proof.
  intros Hne. unfold dict_del.
  induction d as [| [k0 [obj v]] d IH]; [done |].
  rewrite filter_cons. simpl.
  destruct (decide (k0 ≠ k)) as [Hk | Hk]; simpl.
  - destruct (decide (k0 = k')); [done | apply IH].
  - destruct (decide (k0 = k')) as [-> | _]; [| apply IH].
    exfalso. apply Hk. congruence.
Qed.

Lemma dict_del_keys {V} (d : pydict V) k :
  (dict_del d k).*1 = filter (λ k', k' ≠ k) d.*1.
Proof.
  unfold dict_del. induction d as [| [k0 e] d IH]; [done |].
  rewrite filter_cons, fmap_cons, filter_cons. simpl.
  destruct (decide (k0 ≠ k)); [| exact IH].
  rewrite fmap_cons. simpl. f_equal. exact IH.
Qed.

Lemma dict_del_length {V} (d : pydict V) k :
  (length (dict_del d k) ≤ length d)%nat.
Proof. apply length_filter. Qed.

Lemma length_last_100 {A} (l : list A) : (length (last_100 l) ≤ 100)%nat.
Proof. unfold last_100. rewrite length_drop. lia. Qed.

Lemma length_set_last {A} (l : list A) x : length (set_last l x) = length l.
Proof. apply length_insert. Qed.

Lemma last_last_100 {A} (l : list A) x : last (last_100 (l ++ [x])%list) = Some x.
Proof.
  unfold last_100. rewrite length_app. simpl.
  destruct (decide (length l + 1 - 100 ≤ length l)%nat) as [Hle | Hgt];
    [| lia].
  rewrite drop_app_le by lia. apply last_snoc.
Qed.

Lemma last_set_last {A} (l : list A) x y :
  last l = Some y → last (set_last l x) = Some x.
Proof.
  intros Hlast. unfold set_last.
  rewrite last_lookup, length_insert. apply list_lookup_insert_eq.
  destruct l; [done | simpl; lia].
Qed.

(** The invariant depends on the two dictionaries only. *)
Lemma chat_inv_tables c : chat_inv c ↔ tables_inv (rooms c) (client_sid_map c).
Proof. done. Qed.

Lemma tables_inv_new_room all_rooms sid_map k name :
  tables_inv all_rooms sid_map →
  all_rooms !! k = None →
  tables_inv (<[k := mkRoom name [] []]> all_rooms) sid_map.
Proof.
  intros [Hrooms Hsids] Hfresh. split.
  - intros k' room. rewrite lookup_insert. case_decide.
    + intros [= <-]. split; simpl; [constructor | lia | lia].
    + apply Hrooms.
  - intros sid u r Hsid.
    destruct (Hsids _ _ _ Hsid) as (rk & uk & room & Hr & Hu & Hroom & Hm).
    exists rk, uk, room. split; [done |]. split; [done |]. split; [| done].
    rewrite lookup_insert_ne; [done |]. congruence.
Qed.

Lemma tables_inv_messages all_rooms sid_map k room msgs :
  tables_inv all_rooms sid_map →
  all_rooms !! k = Some room →
  (length msgs ≤ 100)%nat →
  tables_inv (<[k := mkRoom (room_name room) (room_members room) msgs]>
                all_rooms) sid_map.
Proof.
  intros [Hrooms Hsids] Hroom Hlen. split.
  - intros k' room'. rewrite lookup_insert. case_decide.
    + intros [= <-]. destruct (Hrooms _ _ Hroom). by split.
    + apply Hrooms.
  - intros sid u r Hsid.
    destruct (Hsids _ _ _ Hsid) as (rk & uk & room0 & Hr & Hu & Hroom0 & Hm).
    destruct (decide (k = rk)) as [-> | Hne].
    + exists rk, uk, (mkRoom (room_name room) (room_members room) msgs).
      rewrite lookup_insert_eq. simpl. by simplify_eq.
    + exists rk, uk, room0. by rewrite lookup_insert_ne.
Qed.

Lemma tables_inv_join all_rooms sid_map k room user_key username roomName
    sid :
  tables_inv all_rooms sid_map →
  all_rooms !! k = Some room →
  py_key roomName = Return k →
  py_key username = Return user_key →
  dict_get (room_members room) user_key = None →
  (length (room_members room) < 10)%nat →
  tables_inv
    (<[k := mkRoom (room_name room)
              (dict_set (room_members room) user_key username
                 (mkMember username sid))
              (room_messages room)]> all_rooms)
    (<[sid := (username, roomName)]> sid_map).
Proof.
  intros [Hrooms Hsids] Hroom Hrk Huk Hfree Hlen.
  rewrite (dict_set_absent _ _ _ _ Hfree).
  split.
  - intros k' room'. rewrite lookup_insert. case_decide.
    + intros [= <-]. destruct (Hrooms _ _ Hroom) as [Hd Hc Hh].
      split; simpl; [| rewrite length_app; simpl; lia | done].
      rewrite fmap_app. simpl. apply NoDup_app. split; [done |].
      split; [| apply NoDup_singleton].
      intros x Hx Hx'. apply list_elem_of_singleton in Hx' as ->.
      by apply dict_get_None in Hfree.
    + apply Hrooms.
  - intros sid' u r. rewrite lookup_insert. case_decide.
    + intros [= <- <-]. subst sid'.
      exists k, user_key,
        (mkRoom (room_name room)
           (room_members room ++ [(user_key, (username, mkMember username sid))])
           (room_messages room)).
      split; [done |]. split; [done |].
      split; [apply lookup_insert_eq |]. simpl.
      rewrite dict_get_app, Hfree. simpl. by rewrite decide_True.
    + intros Hsid.
      destruct (Hsids _ _ _ Hsid) as (rk & uk & room0 & Hr & Hu & Hroom0 & Hm).
      destruct (decide (k = rk)) as [-> | Hne].
      * assert (room0 = room) as -> by congruence.
        exists rk, uk,
          (mkRoom (room_name room)
             (room_members room
              ++ [(user_key, (username, mkMember username sid))])
             (room_messages room)).
        split; [done |]. split; [done |].
        split; [apply lookup_insert_eq |]. simpl.
        by rewrite dict_get_app, Hm.
      * exists rk, uk, room0. by rewrite lookup_insert_ne.
Qed.

Lemma tables_inv_forget all_rooms sid_map sid :
  tables_inv all_rooms sid_map → tables_inv all_rooms (delete sid sid_map).
Proof.
  intros [Hrooms Hsids]. split; [done |].
  intros sid' u r [_ Hsid]%lookup_delete_Some. by apply Hsids.
Qed.

Lemma tables_inv_leave all_rooms sid_map sid username roomName k user_key
    room :
  tables_inv all_rooms sid_map →
  sid_map !! sid = Some (username, roomName) →
  py_key roomName = Return k →
  py_key username = Return user_key →
  all_rooms !! k = Some room →
  tables_inv
    (match dict_del (room_members room) user_key with
     | [] => delete k all_rooms
     | members =>
         <[k := mkRoom (room_name room) members (room_messages room)]>
           all_rooms
     end)
    (delete sid sid_map).
Proof.
  intros [Hrooms Hsids] Hsid Hrk Huk Hroom.
  assert (∀ sid' u r,
            delete sid sid_map !! sid' = Some (u, r) →
            ∀ rk uk room0,
              py_key r = Return rk → py_key u = Return uk →
              all_rooms !! rk = Some room0 →
              dict_get (room_members room0) uk = Some (mkMember u sid') →
              rk = k → uk ≠ user_key) as Hdistinct.
  { intros sid' u r [Hne Hsid']%lookup_delete_Some rk uk room0 Hr Hu Hroom0
           Hm -> ->.
    destruct (Hsids _ _ _ Hsid) as (rk1 & uk1 & room1 & Hr1 & Hu1 & Hroom1 & Hm1).
    assert (rk1 = k) as -> by congruence.
    assert (room1 = room0) as -> by congruence.
    assert (uk1 = user_key) as -> by congruence.
    rewrite Hm in Hm1. injection Hm1 as _ Heq. congruence. }
  split.
  - intros k' room'.
    destruct (dict_del (room_members room) user_key) as [| e members] eqn:Hdel.
    + intros [_ H]%lookup_delete_Some. by eapply Hrooms.
    + rewrite lookup_insert. case_decide; [| apply Hrooms].
      intros [= <-]. destruct (Hrooms _ _ Hroom) as [Hd Hc Hh].
      split; cbn [room_members room_messages]; [| | done].
      * rewrite <- Hdel, dict_del_keys. by apply NoDup_filter.
      * rewrite <- Hdel. pose proof (dict_del_length (room_members room) user_key).
        lia.
  - intros sid' u r Hsid'.
    pose proof Hsid' as [Hne Hsid0]%lookup_delete_Some.
    destruct (Hsids _ _ _ Hsid0) as (rk & uk & room0 & Hr & Hu & Hroom0 & Hm).
    destruct (decide (rk = k)) as [-> | Hother].
    + assert (uk ≠ user_key) as Hkeep by (by eapply Hdistinct).
      assert (room0 = room) as -> by congruence.
      assert (dict_get (dict_del (room_members room) user_key) uk
              = Some (mkMember u sid')) as Hm'
        by (rewrite dict_get_del_ne; [done | congruence]).
      destruct (dict_del (room_members room) user_key) as [| e members]
        eqn:Hdel; [done |].
      eexists k, uk, _. rewrite lookup_insert_eq. by simpl.
    + exists rk, uk, room0. split; [done |]. split; [done |]. split; [| done].
      destruct (dict_del (room_members room) user_key).
      * rewrite lookup_delete_ne; [done | congruence].
      * rewrite lookup_insert_ne; [done | congruence].
Qed.

#[local] Arguments Nat.leb : simpl never.

Ltac chat_cases :=
  repeat (case_match; simpl in *; simplify_eq; try done).

Lemma on_join_room_inv data sid c :
  chat_inv c → chat_inv (on_join_room data sid c).2.
Proof.
  intros Hinv. apply chat_inv_tables in Hinv.
  unfold on_join_room, update_user_list. run_chat. chat_cases.
  all: apply chat_inv_tables; simpl; try done.
  all: apply tables_inv_join; try done; by apply Nat.leb_gt.
Qed.

#[local] Arguments on_join_room : simpl never.
#[local] Arguments update_user_list : simpl never.

Lemma on_create_room_inv data sid c :
  chat_inv c → chat_inv (on_create_room data sid c).2.
Proof.
  intros Hinv. apply chat_inv_tables in Hinv.
  unfold on_create_room. run_chat. chat_cases.
  apply on_join_room_inv, chat_inv_tables. simpl.
  by apply tables_inv_new_room.
Qed.

Lemma update_user_list_tables roomName c :
  rooms (update_user_list roomName c).2 = rooms c ∧
  client_sid_map (update_user_list roomName c).2 = client_sid_map c.
Proof. unfold update_user_list. run_chat. by chat_cases. Qed.

Lemma on_chat_message_inv data sid now c :
  chat_inv c → chat_inv (on_chat_message data sid now c).2.
Proof.
  intros Hinv. apply chat_inv_tables in Hinv.
  unfold on_chat_message. run_chat. chat_cases.
  all: apply chat_inv_tables; simpl; try done.
  all: repeat first
    [ done
    | rewrite insert_insert_eq
    | apply tables_inv_messages;
      [done | done | rewrite ?length_set_last; apply length_last_100] ].
Qed.

Lemma on_disconnect_inv sid c :
  chat_inv c → chat_inv (on_disconnect sid c).2.
Proof.
  intros Hinv. apply chat_inv_tables in Hinv.
  unfold on_disconnect. run_chat.
  destruct (client_sid_map c !! sid) as [[username roomName] |] eqn:Hsid;
    [| done].
  simpl. destruct (py_key roomName) as [room_key | exc] eqn:Hrk; simpl;
    [| by apply chat_inv_tables, tables_inv_forget].
  destruct (rooms c !! room_key) as [room |] eqn:Hroom; simpl;
    [| by apply chat_inv_tables, tables_inv_forget].
  destruct (py_key username) as [user_key | exc] eqn:Huk; simpl;
    [| by apply chat_inv_tables, tables_inv_forget].
  destruct (dict_get (room_members room) user_key) eqn:Hm; simpl;
    [| by apply chat_inv_tables, tables_inv_forget].
  pose proof (tables_inv_leave _ _ _ _ _ _ _ _ Hinv Hsid Hrk Huk Hroom)
    as Hleave.
  destruct (dict_del (room_members room) user_key) as [| e members] eqn:Hdel;
    simpl; [by apply chat_inv_tables |].
  apply chat_inv_tables.
  by destruct (update_user_list_tables roomName
    (mkChat (<[room_key := mkRoom (room_name room) (e :: members)
                              (room_messages room)]> (rooms c))
       (delete sid (client_sid_map c))
       (effects c ++ [Left roomName sid]))) as [-> ->].
Qed.

Lemma dispatch_inv sid req c : chat_inv c → chat_inv (dispatch sid req c).2.
Proof.
  destruct req; simpl;
    [done | apply on_create_room_inv | apply on_join_room_inv
    | apply on_chat_message_inv | apply on_disconnect_inv].
Qed.

Lemma serve_inv reqs c : chat_inv c → chat_inv (serve reqs c).
Proof.
  revert c. induction reqs as [| [sid req] reqs IH]; intros c Hinv; [done |].
  simpl. by apply IH, dispatch_inv.
Qed.

Lemma no_rooms_inv : chat_inv no_rooms.
Proof.
  split.
  - intros k room H. simpl in H. by rewrite lookup_empty in H.
  - intros sid u r H. simpl in H. by rewrite lookup_empty in H.
Qed.

(* ===================================================================== *)
(** * Rooms: paths through the handlers                                  *)
(* ===================================================================== *)

Lemma on_join_room_success data sid c username roomName room_key user_key
    room :
  joining data c username roomName room_key user_key room →
  on_join_room data sid c =
    (Return tt, joined_chat c sid username roomName room_key user_key room).
Proof.
  intros [Hu Hr Htu Htr Hrk Huk Hroom Hfree Hlen].
  unfold on_join_room, update_user_list.
  rewrite Hu, Hr, Htu, Htr.
  run_chat. rewrite Hrk. simpl. rewrite Hroom, Huk. simpl. rewrite Hfree.
  replace (10 <=? length (room_members room))%nat with false
    by (symmetry; by apply Nat.leb_gt).
  rewrite lookup_insert_eq. simpl.
  unfold joined_chat, joined_room. rewrite (dict_set_absent _ _ _ _ Hfree).
  unfold dict_keys. rewrite fmap_app. simpl.
  by rewrite <- !app_assoc.
Qed.

Lemma last_100_short {A} (l : list A) :
  (length l ≤ 100)%nat → last_100 l = l.
Proof.
  intros Hlen. unfold last_100.
  replace (length l - 100)%nat with 0%nat by lia. apply drop_0.
Qed.

Lemma last_100_snoc {A} (l : list A) x :
  (length l ≤ 100)%nat →
  last_100 (l ++ [x])%list =
    ((if decide (length l < 100)%nat then l else drop 1 l) ++ [x])%list.
Proof.
  intros Hlen. unfold last_100. rewrite length_app. simpl.
  case_decide.
  - replace (length l + 1 - 100)%nat with 0%nat by lia. apply drop_0.
  - replace (length l + 1 - 100)%nat with 1%nat by lia.
    rewrite drop_app_le; [done | lia].
Qed.

Lemma set_last_last_100 {A} (l : list A) x y :
  set_last (last_100 (l ++ [x])%list) y = last_100 (l ++ [y])%list.
Proof.
  unfold set_last, last_100. rewrite !length_drop, !length_app. simpl.
  rewrite !drop_app_le by lia.
  replace (pred (length l + 1 - (length l + 1 - 100)))%nat
    with (length (drop (length l + 1 - 100) l) + 0)%nat
    by (rewrite length_drop; lia).
  by rewrite insert_app_r.
Qed.

(** What [on_chat_message] leaves in the tables, whichever way the
    delivery goes. *)
Lemma on_chat_message_tables data sid now c username roomName room_key room :
  posting c sid username roomName room_key room →
  let recipient :=
    if eq_str (get_or data "mode" (PStr "broadcast")) "unicast"
    then Some (get data "recipient") else None in
  rooms (on_chat_message data sid now c).2 =
    <[room_key := with_messages room
        (last_100 (room_messages room ++
                   [message_of data username now recipient]))]> (rooms c) ∧
  client_sid_map (on_chat_message data sid now c).2 = client_sid_map c.
Proof.
  intros [Hsid Hrk Hroom]. unfold on_chat_message. run_chat.
  rewrite Hsid. simpl. rewrite Hrk. simpl. rewrite Hroom. simpl.
  unfold message_of, with_messages.
  destruct (get_or data "mode" (PStr "broadcast")) as [| | | mode |]; simpl;
    try done.
  destruct (String.eqb mode "broadcast") eqn:Hb; simpl.
  - apply String.eqb_eq in Hb as ->. done.
  - destruct (String.eqb mode "unicast") eqn:Hu; simpl; [| done].
    rewrite insert_insert_eq, set_last_last_100.
    by chat_cases.
Qed.

Lemma on_create_room_success data sid c username roomName room_key
    user_key :
  get data "username" = username →
  get data "roomName" = roomName →
  truthy username = true →
  truthy roomName = true →
  py_key roomName = Return room_key →
  py_key username = Return user_key →
  rooms c !! room_key = None →
  on_create_room data sid c =
    (Return tt,
     mkChat
       (<[room_key := mkRoom roomName
            [(user_key, (username, mkMember username sid))] []]> (rooms c))
       (<[sid := (username, roomName)]> (client_sid_map c))
       (effects c ++
        [Joined roomName sid;
         Emitted "join_success" (JoinSuccess roomName username []) (PStr sid);
         Emitted "user_list_update" (UserList [username]) roomName])%list).
Proof.
  intros Hu Hr Htu Htr Hrk Huk Hnone.
  unfold on_create_room. rewrite Hu, Hr, Htu, Htr. run_chat.
  rewrite Hrk. simpl. rewrite Hnone. simpl.
  rewrite (on_join_room_success data sid _ username roomName room_key
             user_key (mkRoom roomName [] [])).
  - unfold joined_chat, joined_room. simpl. by rewrite insert_insert_eq.
  - constructor; simpl; try done; [apply lookup_insert_eq | lia].
Qed.

Lemma on_disconnect_member c sid username roomName room_key user_key room
    entry :
  client_sid_map c !! sid = Some (username, roomName) →
  py_key roomName = Return room_key →
  py_key username = Return user_key →
  rooms c !! room_key = Some room →
  dict_get (room_members room) user_key = Some entry →
  on_disconnect sid c =
    (Return tt,
     match dict_del (room_members room) user_key with
     | [] =>
         mkChat (delete room_key (rooms c)) (delete sid (client_sid_map c))
           (effects c ++ [Left roomName sid])%list
     | members =>
         mkChat
           (<[room_key := mkRoom (room_name room) members
                            (room_messages room)]> (rooms c))
           (delete sid (client_sid_map c))
           (effects c ++
            [Left roomName sid;
             Emitted "user_list_update" (UserList (dict_keys members))
               roomName])%list
     end).
Proof.
  intros Hsid Hrk Huk Hroom Hentry.
  unfold on_disconnect, update_user_list. run_chat.
  rewrite Hsid. simpl. rewrite Hrk. simpl. rewrite Hroom, Huk. simpl.
  rewrite Hentry.
  destruct (dict_del (room_members room) user_key) as [| e members] eqn:Hdel;
    simpl; [done |].
  rewrite lookup_insert_eq. simpl. by rewrite <- app_assoc.
Qed.

Lemma on_disconnect_sid_map sid c :
  client_sid_map (on_disconnect sid c).2 = delete sid (client_sid_map c).
Proof.
  unfold on_disconnect. run_chat.
  destruct (client_sid_map c !! sid) as [[username roomName] |] eqn:Hsid;
    simpl; [| by rewrite delete_id].
  destruct (py_key roomName) as [room_key |]; simpl; [| done].
  destruct (rooms c !! room_key) as [room |]; simpl; [| done].
  destruct (py_key username) as [user_key |]; simpl; [| done].
  destruct (dict_get (room_members room) user_key); simpl; [| done].
  destruct (dict_del (room_members room) user_key); simpl; [done |].
  match goal with
  | |- context [update_user_list ?r ?c'] =>
      pose proof (update_user_list_tables r c') as [_ Hmap];
      destruct (update_user_list r c') as [[] ?]; simpl in *; by rewrite Hmap
  end.
Qed.

Lemma registered_posting c sid username roomName :
  chat_inv c →
  client_sid_map c !! sid = Some (username, roomName) →
  ∃ room_key room, posting c sid username roomName room_key room.
Proof.
  intros [_ Hsids] Hsid.
  destruct (Hsids _ _ _ Hsid) as (room_key & user_key & room & ? & ? & ? & ?).
  by exists room_key, room.
Qed.

(* ===================================================================== *)
(** * Rooms: properties                                                  *)
(* ===================================================================== *)

(** X10.  Whatever the clients send, starting from the empty server,
    every room holds at most ten members and at most a hundred
    messages, and no two of its members are filed under the same
    name. *)
Theorem rooms_stay_within_bounds
    (reqs : list (string * request)) (k : pykey) (room : Room) :
  rooms (serve reqs no_rooms) !! k = Some room →
  NoDup (room_members room).*1 ∧
  (length (room_members room) ≤ 10)%nat ∧
  (length (room_messages room) ≤ 100)%nat.
Proof.
  intros Hroom.
  destruct (serve_inv reqs no_rooms no_rooms_inv) as [Hrooms _].
  by destruct (Hrooms k room Hroom).
Qed.

Lemma rooms_stay_within_bounds_witness :
  NoDup (room_members Lobby.lobby_room).*1 ∧
  (length (room_members Lobby.lobby_room) ≤ 10)%nat ∧
  (length (room_messages Lobby.lobby_room) ≤ 100)%nat.
Proof.
  apply (rooms_stay_within_bounds
           [("sid-a", CreateRoom Lobby.alice); ("sid-b", JoinRoom Lobby.bob)]
           (KStr "lobby") Lobby.lobby_room).
  vm_compute. reflexivity.
Defined.

(** X11.  Whatever the clients send, starting from the empty server,
    every entry of [client_sid_map] points at a room that exists and
    that lists the client, under the recorded username and with this
    very sid. *)
Theorem registered_clients_are_members
    (reqs : list (string * request)) (sid : string)
    (username roomName : pyval) :
  client_sid_map (serve reqs no_rooms) !! sid = Some (username, roomName) →
  registered (rooms (serve reqs no_rooms)) sid username roomName.
Proof.
  intros Hsid.
  destruct (serve_inv reqs no_rooms no_rooms_inv) as [_ Hsids].
  by apply Hsids.
Qed.

Lemma registered_clients_are_members_witness :
  registered (rooms Lobby.two_members) "sid-b" (PStr "bob") (PStr "lobby").
Proof.
  apply (registered_clients_are_members
           [("sid-a", CreateRoom Lobby.alice); ("sid-b", JoinRoom Lobby.bob)]
           "sid-b" (PStr "bob") (PStr "lobby")).
  vm_compute. reflexivity.
Defined.

(** X12.  A broadcast chat message of a registered client is stored in
    the history of the client's room and emitted once, to that room, as
    ['new_message'].  Its sender is the username the server recorded
    for the sid; a ['sender'] entry of the frame is not looked at. *)
Theorem broadcast_names_the_registered_sender
    (data : frame) (sid now : string) (c : chat) (username roomName : pyval)
    (room_key : pykey) (room : Room) :
  posting c sid username roomName room_key room →
  eq_str (get_or data "mode" (PStr "broadcast")) "broadcast" = true →
  on_chat_message data sid now c =
    (Return tt,
     mkChat
       (<[room_key := with_messages room
            (last_100 (room_messages room ++
                       [message_of data username now None]))]> (rooms c))
       (client_sid_map c)
       (effects c ++
        [Emitted "new_message" (NewMessage (message_of data username now None))
           roomName])%list).
Proof.
  intros [Hsid Hrk Hroom] Hmode. unfold on_chat_message. run_chat.
  rewrite Hsid. simpl. rewrite Hrk. simpl. rewrite Hroom. simpl.
  by rewrite Hmode.
Qed.

Lemma broadcast_names_the_registered_sender_witness :
  (on_chat_message Lobby.hello "sid-a" "12:00" Lobby.two_members).2 =
    mkChat
      (<[KStr "lobby" := with_messages Lobby.lobby_room
           [mkMsg (PStr "alice") (PStr "hello") (PStr "text")
              (PStr "broadcast") "12:00" None]]> (rooms Lobby.two_members))
      (client_sid_map Lobby.two_members)
      (effects Lobby.two_members ++
       [Emitted "new_message"
          (NewMessage (mkMsg (PStr "alice") (PStr "hello") (PStr "text")
                         (PStr "broadcast") "12:00" None))
          (PStr "lobby")])%list.
Proof.
  refine (eq_trans
            (f_equal snd
               (broadcast_names_the_registered_sender Lobby.hello "sid-a"
                  "12:00" Lobby.two_members (PStr "alice") (PStr "lobby")
                  (KStr "lobby") Lobby.lobby_room _ _)) _).
  - constructor; vm_compute; reflexivity.
  - vm_compute. reflexivity.
  - vm_compute. reflexivity.
Defined.

(** X13.  In a reachable state the history of a room is a sliding
    window: a chat message of a registered client is appended, and when
    the history already holds a hundred messages the oldest one is
    dropped.  The members of the room are not touched. *)
Theorem history_keeps_the_last_hundred
    (data : frame) (sid now : string) (c : chat)
    (username roomName : pyval) :
  chat_inv c →
  client_sid_map c !! sid = Some (username, roomName) →
  ∃ room_key room room' recipient,
    py_key roomName = Return room_key ∧
    rooms c !! room_key = Some room ∧
    rooms (on_chat_message data sid now c).2 !! room_key = Some room' ∧
    room_members room' = room_members room ∧
    room_messages room' =
      ((if decide (length (room_messages room) < 100)%nat
        then room_messages room else drop 1 (room_messages room)) ++
       [message_of data username now recipient])%list.
Proof.
  intros Hinv Hsid.
  destruct (registered_posting c sid username roomName Hinv Hsid)
    as (room_key & room & Hpost).
  destruct (on_chat_message_tables data sid now c _ _ _ _ Hpost)
    as [Hrooms _].
  destruct Hpost as [_ Hrk Hroom].
  eexists room_key, room, _, _. split; [done |]. split; [done |].
  split; [rewrite Hrooms; apply lookup_insert_eq |].
  split; [done |]. simpl.
  apply last_100_snoc.
  destruct Hinv as [Hbounds _]. by destruct (Hbounds _ _ Hroom).
Qed.

Lemma history_keeps_the_last_hundred_witness :
  ∃ room_key room room' recipient,
    py_key (PStr "lobby") = Return room_key ∧
    rooms Lobby.two_members !! room_key = Some room ∧
    rooms (on_chat_message Lobby.hello "sid-a" "12:00" Lobby.two_members).2
      !! room_key = Some room' ∧
    room_members room' = room_members room ∧
    room_messages room' =
      ((if decide (length (room_messages room) < 100)%nat
        then room_messages room else drop 1 (room_messages room)) ++
       [message_of Lobby.hello (PStr "alice") "12:00" recipient])%list.
Proof.
  apply (history_keeps_the_last_hundred Lobby.hello "sid-a" "12:00"
           Lobby.two_members (PStr "alice") (PStr "lobby")).
  - apply serve_inv, no_rooms_inv.
  - vm_compute. reflexivity.
Defined.

(** X14.  A chat message whose mode is neither ['broadcast'] nor
    ['unicast'] is stored in the history of the sender's room and
    delivered to nobody: nothing is emitted, not even an error. *)
Theorem message_of_other_mode_is_only_stored
    (data : frame) (sid now : string) (c : chat) (username roomName : pyval)
    (room_key : pykey) (room : Room) :
  posting c sid username roomName room_key room →
  eq_str (get_or data "mode" (PStr "broadcast")) "broadcast" = false →
  eq_str (get_or data "mode" (PStr "broadcast")) "unicast" = false →
  on_chat_message data sid now c =
    (Return tt,
     mkChat
       (<[room_key := with_messages room
            (last_100 (room_messages room ++
                       [message_of data username now None]))]> (rooms c))
       (client_sid_map c) (effects c)).
Proof.
  intros [Hsid Hrk Hroom] Hb Hu. unfold on_chat_message. run_chat.
  rewrite Hsid. simpl. rewrite Hrk. simpl. rewrite Hroom. simpl.
  by rewrite Hb, Hu.
Qed.

Lemma message_of_other_mode_is_only_stored_witness :
  (on_chat_message Lobby.shout "sid-a" "12:00" Lobby.two_members).2 =
    mkChat
      (<[KStr "lobby" := with_messages Lobby.lobby_room
           [mkMsg (PStr "alice") (PStr "hey") (PStr "text")
              (PStr "multicast") "12:00" None]]> (rooms Lobby.two_members))
      (client_sid_map Lobby.two_members) (effects Lobby.two_members).
Proof.
  refine (eq_trans
            (f_equal snd
               (message_of_other_mode_is_only_stored Lobby.shout "sid-a"
                  "12:00" Lobby.two_members (PStr "alice") (PStr "lobby")
                  (KStr "lobby") Lobby.lobby_room _ _ _)) _).
  - constructor; vm_compute; reflexivity.
  - vm_compute. reflexivity.
  - vm_compute. reflexivity.
  - vm_compute. reflexivity.
Defined.

(** X15.  Once [on_disconnect] has run for a sid, whatever state it ran
    in and however it ended, a chat message from that sid changes
    nothing and emits nothing. *)
Theorem disconnected_client_cannot_post
    (data : frame) (sid now : string) (c : chat) :
  on_chat_message data sid now (on_disconnect sid c).2 =
    (Return tt, (on_disconnect sid c).2).
Proof.
  unfold on_chat_message at 1. run_chat.
  by rewrite on_disconnect_sid_map, lookup_delete_eq.
Qed.

(** X16.  A unicast chat message whose recipient is a member of the
    sender's room, listed with a non-empty sid, is emitted twice as
    ['new_message']: to the recipient's sid and back to the sender's.
    The message emitted and the one stored both carry the recipient. *)
Theorem unicast_reaches_recipient_and_sender
    (data : frame) (sid now : string) (c : chat) (username roomName : pyval)
    (room_key recipient_key : pykey) (room : Room) (recipient : member) :
  posting c sid username roomName room_key room →
  eq_str (get_or data "mode" (PStr "broadcast")) "unicast" = true →
  py_key (get data "recipient") = Return recipient_key →
  dict_get (room_members room) recipient_key = Some recipient →
  member_sid recipient ≠ "" →
  let msg := message_of data username now (Some (get data "recipient")) in
  on_chat_message data sid now c =
    (Return tt,
     mkChat
       (<[room_key := with_messages room
            (last_100 (room_messages room ++ [msg]))]> (rooms c))
       (client_sid_map c)
       (effects c ++
        [Emitted "new_message" (NewMessage msg) (PStr (member_sid recipient));
         Emitted "new_message" (NewMessage msg) (PStr sid)])%list).
Proof.
  intros [Hsid Hrk Hroom] Hmode Hkey Hrecipient Hnonempty msg.
  unfold on_chat_message. run_chat.
  rewrite Hsid. simpl. rewrite Hrk. simpl. rewrite Hroom. simpl.
  destruct (get_or data "mode" (PStr "broadcast")) as [| | | mode |] eqn:Hm;
    try done.
  simpl in Hmode. apply String.eqb_eq in Hmode as ->. simpl.
  rewrite Hkey. simpl. rewrite Hrecipient.
  destruct (String.eqb (member_sid recipient) "") eqn:Hempty;
    [by apply String.eqb_eq in Hempty |].
  unfold truthy. rewrite Hempty. simpl. rewrite insert_insert_eq, set_last_last_100.
  unfold msg, message_of, with_messages. rewrite Hm.
  by rewrite <- app_assoc.
Qed.

Lemma unicast_reaches_recipient_and_sender_witness :
  effects (on_chat_message Lobby.whisper "sid-a" "12:00"
             Lobby.two_members).2 =
    (effects Lobby.two_members ++
     [Emitted "new_message"
        (NewMessage (mkMsg (PStr "alice") (PStr "psst") (PStr "text")
                       (PStr "unicast") "12:00" (Some (PStr "bob"))))
        (PStr "sid-b");
      Emitted "new_message"
        (NewMessage (mkMsg (PStr "alice") (PStr "psst") (PStr "text")
                       (PStr "unicast") "12:00" (Some (PStr "bob"))))
        (PStr "sid-a")])%list.
Proof.
  refine (eq_trans
            (f_equal (λ r, effects r.2)
               (unicast_reaches_recipient_and_sender Lobby.whisper "sid-a"
                  "12:00" Lobby.two_members (PStr "alice") (PStr "lobby")
                  (KStr "lobby") (KStr "bob") Lobby.lobby_room
                  Lobby.member_bob _ _ _ _ _)) _).
  - constructor; vm_compute; reflexivity.
  - vm_compute. reflexivity.
  - vm_compute. reflexivity.
  - vm_compute. reflexivity.
  - discriminate.
  - vm_compute. reflexivity.
Defined.

(** X17.  A unicast chat message whose recipient is not a member of the
    sender's room is answered with one ['error'] to the sender, naming
    the recipient; the message is stored in the history all the same. *)
Theorem unicast_to_absent_user_is_reported
    (data : frame) (sid now : string) (c : chat) (username roomName : pyval)
    (room_key recipient_key : pykey) (room : Room) :
  posting c sid username roomName room_key room →
  eq_str (get_or data "mode" (PStr "broadcast")) "unicast" = true →
  py_key (get data "recipient") = Return recipient_key →
  dict_get (room_members room) recipient_key = None →
  let msg := message_of data username now (Some (get data "recipient")) in
  on_chat_message data sid now c =
    (Return tt,
     mkChat
       (<[room_key := with_messages room
            (last_100 (room_messages room ++ [msg]))]> (rooms c))
       (client_sid_map c)
       (effects c ++ [not_found (get data "recipient") sid])%list).
Proof.
  intros [Hsid Hrk Hroom] Hmode Hkey Hrecipient msg.
  unfold on_chat_message. run_chat.
  rewrite Hsid. simpl. rewrite Hrk. simpl. rewrite Hroom. simpl.
  destruct (get_or data "mode" (PStr "broadcast")) as [| | | mode |] eqn:Hm;
    try done.
  simpl in Hmode. apply String.eqb_eq in Hmode as ->. simpl.
  rewrite Hkey. simpl. rewrite Hrecipient. simpl.
  rewrite insert_insert_eq, set_last_last_100.
  unfold msg, message_of, with_messages. by rewrite Hm.
Qed.

Lemma unicast_to_absent_user_is_reported_witness :
  (on_chat_message Lobby.to_carol "sid-a" "12:00" Lobby.two_members).2 =
    mkChat
      (<[KStr "lobby" := with_messages Lobby.lobby_room
           [mkMsg (PStr "alice") (PStr "psst") (PStr "text")
              (PStr "unicast") "12:00" (Some (PStr "carol"))]]>
         (rooms Lobby.two_members))
      (client_sid_map Lobby.two_members)
      (effects Lobby.two_members ++
       [Emitted "error" (ErrorMessage "User 'carol' not found.")
          (PStr "sid-a")])%list.
Proof.
  refine (eq_trans
            (f_equal snd
               (unicast_to_absent_user_is_reported Lobby.to_carol "sid-a"
                  "12:00" Lobby.two_members (PStr "alice") (PStr "lobby")
                  (KStr "lobby") (KStr "carol") Lobby.lobby_room _ _ _ _)) _).
  - constructor; vm_compute; reflexivity.
  - vm_compute. reflexivity.
  - vm_compute. reflexivity.
  - vm_compute. reflexivity.
  - vm_compute. reflexivity.
Defined.

(** X18.  A unicast chat message is not private to its two parties: it
    sits in the history of the room, recipient included, and the next
    client that joins the room receives it in the history of its
    ['join_success']. *)
Theorem unicast_is_shown_to_later_joiners
    (data : frame) (sid now : string) (c : chat) (username roomName : pyval)
    (room_key : pykey) (room : Room)
    (data' : frame) (sid' : string) (username' roomName' : pyval)
    (user_key' : pykey) (room' : Room) :
  posting c sid username roomName room_key room →
  eq_str (get_or data "mode" (PStr "broadcast")) "unicast" = true →
  joining data' (on_chat_message data sid now c).2 username' roomName'
    room_key user_key' room' →
  ∃ history,
    last history =
      Some (message_of data username now (Some (get data "recipient"))) ∧
    Emitted "join_success" (JoinSuccess roomName' username' history)
      (PStr sid')
      ∈ effects (on_join_room data' sid' (on_chat_message data sid now c).2).2.
Proof.
  intros Hpost Hmode Hjoin.
  destruct (on_chat_message_tables data sid now c _ _ _ _ Hpost)
    as [Hrooms _].
  rewrite Hmode in Hrooms.
  rewrite (on_join_room_success _ sid' _ _ _ _ _ _ Hjoin). simpl.
  exists (room_messages room'). split.
  - destruct Hjoin as [_ _ _ _ _ _ Hroom' _ _].
    rewrite Hrooms, lookup_insert_eq in Hroom'.
    injection Hroom' as <-. simpl. apply last_last_100.
  - rewrite elem_of_app. right. set_solver.
Qed.

Lemma unicast_is_shown_to_later_joiners_witness :
  ∃ history,
    last history =
      Some (message_of Lobby.to_carol (PStr "alice") "12:00"
              (Some (get Lobby.to_carol "recipient"))) ∧
    Emitted "join_success" (JoinSuccess (PStr "lobby") (PStr "carol") history)
      (PStr "sid-c")
      ∈ effects
          (on_join_room Lobby.carol "sid-c"
             (on_chat_message Lobby.to_carol "sid-a" "12:00"
                Lobby.two_members).2).2.
Proof.
  apply (unicast_is_shown_to_later_joiners Lobby.to_carol "sid-a" "12:00"
           Lobby.two_members (PStr "alice") (PStr "lobby") (KStr "lobby")
           Lobby.lobby_room Lobby.carol "sid-c" (PStr "carol") (PStr "lobby")
           (KStr "carol")
           (with_messages Lobby.lobby_room
              [mkMsg (PStr "alice") (PStr "psst") (PStr "text")
                 (PStr "unicast") "12:00" (Some (PStr "carol"))])).
  - constructor; vm_compute; reflexivity.
  - vm_compute. reflexivity.
  - constructor; try (vm_compute; reflexivity). simpl. lia.
Defined.

(** X19.  [on_join_room] is all or nothing.  Either every condition of
    joining holds and the caller is added to the room and to
    [client_sid_map], put into the broadcast group, sent the history
    and announced in the user list, in this order; or the two tables
    are left as they were, and then the call either sends one ['error']
    to the caller or raises without having sent anything. *)
Theorem join_is_all_or_nothing (data : frame) (sid : string) (c : chat) :
  (∃ username roomName room_key user_key room,
     joining data c username roomName room_key user_key room ∧
     on_join_room data sid c =
       (Return tt, joined_chat c sid username roomName room_key user_key room))
  ∨ (∃ message, on_join_room data sid c = (Return tt, refused c sid message))
  ∨ (∃ exc, on_join_room data sid c = (Raise exc, c)).
Proof.
  destruct (truthy (get data "username")) eqn:Htu; cycle 1.
  { right; left. eexists. unfold on_join_room. by rewrite Htu. }
  destruct (truthy (get data "roomName")) eqn:Htr; cycle 1.
  { right; left. eexists. unfold on_join_room. by rewrite Htu, Htr. }
  destruct (py_key (get data "roomName")) as [room_key | exc] eqn:Hrk;
    cycle 1.
  { right; right. exists exc. unfold on_join_room. rewrite Htu, Htr.
    run_chat. by rewrite Hrk. }
  destruct (rooms c !! room_key) as [room |] eqn:Hroom; cycle 1.
  { right; left. eexists. unfold on_join_room. rewrite Htu, Htr.
    run_chat. rewrite Hrk. simpl. by rewrite Hroom. }
  destruct (py_key (get data "username")) as [user_key | exc] eqn:Huk;
    cycle 1.
  { right; right. exists exc. unfold on_join_room. rewrite Htu, Htr.
    run_chat. rewrite Hrk. simpl. rewrite Hroom. by rewrite Huk. }
  destruct (dict_get (room_members room) user_key) as [entry |] eqn:Hfree.
  { right; left. eexists. unfold on_join_room. rewrite Htu, Htr.
    run_chat. rewrite Hrk. simpl. rewrite Hroom, Huk. simpl.
    by rewrite Hfree. }
  destruct (10 <=? length (room_members room))%nat eqn:Hlen.
  { right; left. eexists. unfold on_join_room. rewrite Htu, Htr.
    run_chat. rewrite Hrk. simpl. rewrite Hroom, Huk. simpl.
    by rewrite Hfree, Hlen. }
  left. exists (get data "username"), (get data "roomName"), room_key,
    user_key, room.
  assert (joining data c (get data "username") (get data "roomName")
            room_key user_key room) as Hjoin
    by (constructor; try done; by apply Nat.leb_gt).
  split; [done |]. by apply on_join_room_success.
Qed.

(** X20.  Creating a room and disconnecting is a round trip on the
    tables: when a client that is not registered creates a room that
    does not exist and then disconnects, [rooms] and [client_sid_map]
    are again what they were; the room is gone with its only member. *)
Theorem create_then_disconnect_restores_tables
    (data : frame) (sid : string) (c : chat) (username roomName : pyval)
    (room_key user_key : pykey) :
  get data "username" = username →
  get data "roomName" = roomName →
  truthy username = true →
  truthy roomName = true →
  py_key roomName = Return room_key →
  py_key username = Return user_key →
  rooms c !! room_key = None →
  client_sid_map c !! sid = None →
  let c' := (on_disconnect sid (on_create_room data sid c).2).2 in
  rooms c' = rooms c ∧
  client_sid_map c' = client_sid_map c ∧
  effects c' =
    (effects c ++
     [Joined roomName sid;
      Emitted "join_success" (JoinSuccess roomName username []) (PStr sid);
      Emitted "user_list_update" (UserList [username]) roomName;
      Left roomName sid])%list.
Proof.
  intros Hu Hr Htu Htr Hrk Huk Hnone Hsid c'. unfold c'.
  rewrite (on_create_room_success data sid c _ _ _ _ Hu Hr Htu Htr Hrk Huk
             Hnone).
  cbv beta iota delta [snd].
  erewrite (on_disconnect_member _ sid username roomName room_key user_key);
    [| apply lookup_insert_eq | done | done | apply lookup_insert_eq
     | simpl; by rewrite decide_True ].
  simpl. unfold dict_del. rewrite filter_cons. simpl.
  rewrite decide_False by (intros H; by apply H).
  rewrite filter_nil. simpl.
  split; [by apply delete_insert_id |].
  split; [by apply delete_insert_id |].
  by rewrite <- app_assoc.
Qed.

Lemma create_then_disconnect_restores_tables_witness :
  rooms (on_disconnect "sid-d"
           (on_create_room Lobby.den "sid-d" Lobby.two_members).2).2
    = rooms Lobby.two_members ∧
  client_sid_map (on_disconnect "sid-d"
           (on_create_room Lobby.den "sid-d" Lobby.two_members).2).2
    = client_sid_map Lobby.two_members.
Proof.
  pose proof (create_then_disconnect_restores_tables Lobby.den "sid-d"
                Lobby.two_members (PStr "al") (PStr "den") (KStr "den")
                (KStr "al")) as H.
  destruct H as (Hrooms & Hmap & _); try (vm_compute; reflexivity).
  split; [exact Hrooms | exact Hmap].
Defined.

(** X21.  A client that joins a second room under the same connection
    is never taken out of the first.  [client_sid_map] keeps one entry
    per sid, so joining overwrites it; [on_disconnect] then removes the
    client from the second room only, and the first room keeps listing
    a member, with the sid of a connection that is gone. *)
Theorem rejoining_client_stays_listed
    (data : frame) (sid : string) (c : chat) (username roomName : pyval)
    (room_key : pykey) (room : Room) (username' roomName' : pyval)
    (room_key' user_key' : pykey) (room' : Room) :
  chat_inv c →
  posting c sid username roomName room_key room →
  joining data c username' roomName' room_key' user_key' room' →
  room_key ≠ room_key' →
  let c' := (on_disconnect sid (on_join_room data sid c).2).2 in
  client_sid_map c' !! sid = None ∧
  rooms c' !! room_key = Some room ∧
  ∃ user_key,
    dict_get (room_members room) user_key = Some (mkMember username sid).
Proof.
  intros [_ Hsids] [Hsid Hrk Hroom] Hjoin Hne c'. unfold c'.
  split; [by rewrite on_disconnect_sid_map, lookup_delete_eq |].
  split.
  - rewrite (on_join_room_success _ sid _ _ _ _ _ _ Hjoin).
    cbv beta iota delta [snd].
    destruct Hjoin as [_ _ _ _ Hrk' Huk' Hroom' Hfree _].
    erewrite (on_disconnect_member _ sid username' roomName' room_key'
                user_key');
      [| apply lookup_insert_eq | done | done | apply lookup_insert_eq
       | unfold joined_room; simpl;
         rewrite (dict_set_absent _ _ _ _ Hfree), dict_get_app, Hfree;
         simpl; by rewrite decide_True ].
    unfold joined_chat.
    destruct (dict_del _ _); simpl.
    + by rewrite lookup_delete_ne, lookup_insert_ne.
    + by rewrite !lookup_insert_ne.
  - destruct (Hsids _ _ _ Hsid) as (rk & uk & room0 & Hrk0 & _ & Hroom0 & Hm).
    rewrite Hrk in Hrk0. injection Hrk0 as <-.
    rewrite Hroom in Hroom0. injection Hroom0 as <-.
    by exists uk.
Qed.

Lemma rejoining_client_stays_listed_witness :
  let c' :=
    (on_disconnect "sid-a"
       (on_join_room Lobby.den_guest "sid-a"
          (serve [("sid-d", CreateRoom Lobby.den)] Lobby.two_members)).2).2 in
  client_sid_map c' !! "sid-a" = None ∧
  rooms c' !! KStr "lobby" = Some Lobby.lobby_room ∧
  ∃ user_key,
    dict_get (room_members Lobby.lobby_room) user_key
      = Some (mkMember (PStr "alice") "sid-a").
Proof.
  apply (rejoining_client_stays_listed Lobby.den_guest "sid-a"
           (serve [("sid-d", CreateRoom Lobby.den)] Lobby.two_members)
           (PStr "alice") (PStr "lobby") (KStr "lobby") Lobby.lobby_room
           (PStr "guest") (PStr "den") (KStr "den") (KStr "guest")
           (mkRoom (PStr "den")
              [(KStr "al", (PStr "al", mkMember (PStr "al") "sid-d"))] [])).
  - apply serve_inv, serve_inv, no_rooms_inv.
  - constructor; vm_compute; reflexivity.
  - constructor; try (vm_compute; reflexivity). simpl. lia.
  - discriminate.
Defined.

Lemma dict_get_del_eq {V} (d : pydict V) k : dict_get (dict_del d k) k = None.
Proof.
  apply dict_get_None. rewrite dict_del_keys, list_elem_of_filter.
  by intros [Hne _].
Qed.

(** X22.  [on_create_room] creates the room before it joins the caller
    to it.  With a non-empty list as username the join raises; the room
    then stays behind without a member, and a later attempt to create a
    room of that name is refused. *)
Theorem unhashable_username_leaves_an_empty_room
    (data : frame) (sid : string) (c : chat) (l : list pyval)
    (roomName : pyval) (room_key : pykey) :
  get data "username" = PList l →
  l ≠ [] →
  get data "roomName" = roomName →
  truthy roomName = true →
  py_key roomName = Return room_key →
  rooms c !! room_key = None →
  let c' :=
    mkChat (<[room_key := mkRoom roomName [] []]> (rooms c))
      (client_sid_map c) (effects c) in
  on_create_room data sid c =
    (Raise (TypeError "unhashable type: 'list'"), c') ∧
  ∀ data' sid',
    get data' "roomName" = roomName →
    truthy (get data' "username") = true →
    on_create_room data' sid' c' =
      (Return tt, refused c' sid' "Room name already exists.").
Proof.
  intros Hu Hl Hr Htr Hrk Hnone c'. split.
  - unfold on_create_room. rewrite Hu, Hr, Htr.
    destruct l as [| x l]; [done |]. run_chat.
    rewrite Hrk. simpl. rewrite Hnone. simpl.
    unfold on_join_room. rewrite Hu, Hr, Htr. run_chat.
    rewrite Hrk. simpl. by rewrite lookup_insert_eq.
  - intros data' sid' Hr' Htu'. unfold on_create_room.
    rewrite Hr', Htu', Htr. run_chat. rewrite Hrk. simpl.
    by rewrite lookup_insert_eq.
Qed.

Lemma unhashable_username_leaves_an_empty_room_witness :
  on_create_room Lobby.nameless "sid-n" Lobby.two_members =
    (Raise (TypeError "unhashable type: 'list'"),
     mkChat (<[KStr "attic" := mkRoom (PStr "attic") [] []]>
               (rooms Lobby.two_members))
       (client_sid_map Lobby.two_members) (effects Lobby.two_members)).
Proof.
  apply (unhashable_username_leaves_an_empty_room Lobby.nameless "sid-n"
           Lobby.two_members [PStr "x"] (PStr "attic") (KStr "attic"));
    try (vm_compute; reflexivity).
  discriminate.
Defined.

(** X23.  In a reachable state the disconnection of a registered client
    takes exactly that client out of its room: the entry under its name
    goes, every other member stays, the others are sent the new user
    list, and a room left without members is deleted. *)
Theorem disconnect_removes_the_member
    (sid : string) (c : chat) (username roomName : pyval) :
  chat_inv c →
  client_sid_map c !! sid = Some (username, roomName) →
  ∃ room_key user_key room,
    py_key roomName = Return room_key ∧
    py_key username = Return user_key ∧
    rooms c !! room_key = Some room ∧
    dict_get (room_members room) user_key = Some (mkMember username sid) ∧
    let members := dict_del (room_members room) user_key in
    dict_get members user_key = None ∧
    (∀ k, k ≠ user_key → dict_get members k = dict_get (room_members room) k) ∧
    on_disconnect sid c =
      (Return tt,
       match members with
       | [] =>
           mkChat (delete room_key (rooms c)) (delete sid (client_sid_map c))
             (effects c ++ [Left roomName sid])%list
       | _ =>
           mkChat
             (<[room_key := mkRoom (room_name room) members
                              (room_messages room)]> (rooms c))
             (delete sid (client_sid_map c))
             (effects c ++
              [Left roomName sid;
               Emitted "user_list_update" (UserList (dict_keys members))
                 roomName])%list
       end).
Proof.
  intros [_ Hsids] Hsid.
  destruct (Hsids _ _ _ Hsid)
    as (room_key & user_key & room & Hrk & Huk & Hroom & Hentry).
  exists room_key, user_key, room.
  repeat (split; [done |]). intros members.
  split; [apply dict_get_del_eq |].
  split; [intros k Hne; by apply dict_get_del_ne |].
  rewrite (on_disconnect_member c sid username roomName room_key user_key
             room _ Hsid Hrk Huk Hroom Hentry).
  unfold members. by destruct (dict_del _ _).
Qed.

Lemma disconnect_removes_the_member_witness :
  ∃ room_key user_key room,
    py_key (PStr "lobby") = Return room_key ∧
    py_key (PStr "bob") = Return user_key ∧
    rooms Lobby.two_members !! room_key = Some room ∧
    dict_get (room_members room) user_key
      = Some (mkMember (PStr "bob") "sid-b") ∧
    let members := dict_del (room_members room) user_key in
    dict_get members user_key = None ∧
    (∀ k, k ≠ user_key → dict_get members k = dict_get (room_members room) k) ∧
    on_disconnect "sid-b" Lobby.two_members =
      (Return tt,
       match members with
       | [] =>
           mkChat (delete room_key (rooms Lobby.two_members))
             (delete "sid-b" (client_sid_map Lobby.two_members))
             (effects Lobby.two_members ++ [Left (PStr "lobby") "sid-b"])%list
       | _ =>
           mkChat
             (<[room_key := mkRoom (room_name room) members
                              (room_messages room)]>
                (rooms Lobby.two_members))
             (delete "sid-b" (client_sid_map Lobby.two_members))
             (effects Lobby.two_members ++
              [Left (PStr "lobby") "sid-b";
               Emitted "user_list_update" (UserList (dict_keys members))
                 (PStr "lobby")])%list
       end).
Proof.
  apply (disconnect_removes_the_member "sid-b" Lobby.two_members (PStr "bob")
           (PStr "lobby")).
  - apply serve_inv, no_rooms_inv.
  - vm_compute. reflexivity.
Defined.
